(** * irtrx: infrared pulse-pair decoders and frame marshallers

    A shallow embedding of the decoding core of [github.com/sparques/irtrx]:
    the four receive state machines ([cheapo], [samsung], [hexbug], [ppm],
    the last in both of its revisions), the Samsung and Hexbug frame
    marshallers, the Samsung unmarshaller, the fan-out dispatcher and the
    interrupt handlers of the receive device, with the properties the
    specification states about them and further properties read off the
    code.  The transmit device is left out: it only drives the PWM hardware
    and sleeps.

    Conventions.
    - [time.Duration] is a signed 64-bit count of nanoseconds; it is a [Z]
      and every arithmetic operation that can leave the range is wrapped.
    - Go's [int] is taken at 64 bits; [uint32], [uint16] and [int16] wrap as
      the language prescribes.  A shift by a negative count is a run-time
      panic, as is an array index out of range: a handler therefore returns
      an [option], [None] standing for the panic.
    - A completion callback is modelled by the list of values it was called
      with, in call order. *)

From Stdlib Require Import ZArith Lia Bool List.
From stdpp Require Import base list.
Import ListNotations.

Local Open Scope Z_scope.

(** ** Machine integers *)

Definition wrap_uint16 (x : Z) : Z := x mod 2 ^ 16.
Definition wrap_uint32 (x : Z) : Z := x mod 2 ^ 32.
Definition wrap_uint64 (x : Z) : Z := x mod 2 ^ 64.
Definition wrap_int16 (x : Z) : Z := (x + 2 ^ 15) mod 2 ^ 16 - 2 ^ 15.
Definition wrap_int64 (x : Z) : Z := (x + 2 ^ 63) mod 2 ^ 64 - 2 ^ 63.

(** Go's [int]. *)
Definition wrap_int (x : Z) : Z := wrap_int64 x.
Definition max_int : Z := 2 ^ 63 - 1.

(** [x << n] at type [uint32]; the shift count is an [int]. *)
Definition shl_uint32 (x n : Z) : option Z :=
  if n <? 0 then None else Some (wrap_uint32 (Z.shiftl x n)).

(** [x << n] at type [int16]. *)
Definition shl_int16 (x n : Z) : option Z :=
  if n <? 0 then None else Some (wrap_int16 (Z.shiftl x n)).

(** ** ir.go: durations and time pairs *)

Definition Duration : Type := Z.
Definition Nanosecond : Duration := 1.
Definition Microsecond : Duration := 1000 * Nanosecond.
Definition Millisecond : Duration := 1000 * Microsecond.
Definition minDuration : Duration := - 2 ^ 63.
Definition maxDuration : Duration := 2 ^ 63 - 1.

(** [type TimePair [2]time.Duration]: [pair[0]] is the assert ("on")
    duration and [pair[1]] the deassert ("off") duration. *)
Definition TimePair : Type := (Duration * Duration)%type.

(** ** Running a state machine over a pulse stream *)

Section Run.
Context {St Call : Type}.
Variable step : St -> TimePair -> option (St * list Call).

(** Feed the pairs in order; collect the callback invocations. *)
Fixpoint run (s : St) (ps : list TimePair) : option (St * list Call) :=
  match ps with
  | [] => Some (s, [])
  | p :: ps' =>
      match step s p with
      | None => None
      | Some (s', cs) =>
          match run s' ps' with
          | None => None
          | Some (s'', cs') => Some (s'', cs ++ cs')
          end
      end
  end.
End Run.

(** ** cheapo/cheapo.go: the generic fixed-length code *)

Module Cheapo.

Record StateMachine : Type := mkSM { buf : Z; bitcount : Z }.

Definition NewStateMachine : StateMachine := {| buf := 0; bitcount := 0 |}.

(** The [switch] of [HandleTimePair] below its first case: the "one" case
    sets a bit and falls through to the "zero" case, which counts the
    pulse.  When neither comparison holds nothing is touched. *)
Definition classify (c : StateMachine) (off : Duration) : option StateMachine :=
  if off >? Millisecond then
    match shl_uint32 1 (bitcount c) with
    | None => None
    | Some m => Some {| buf := Z.lor (buf c) m;
                        bitcount := wrap_int (bitcount c + 1) |}
    end
  else if off <? Millisecond then
    Some {| buf := buf c; bitcount := wrap_int (bitcount c + 1) |}
  else Some c.

Definition HandleTimePair (c : StateMachine) (pair : TimePair)
  : option (StateMachine * list Z) :=
  let '(on, off) := pair in
  if on >? 7 * Millisecond then Some ({| buf := 0; bitcount := 0 |}, [])
  else
    match classify c off with
    | None => None
    | Some c' =>
        if bitcount c' <? 10 then Some (c', []) else Some (c', [buf c'])
    end.

(** A pulse that the [switch] classifies as a bit: not a start marker and
    either above or below the bit threshold. *)
Definition classified (p : TimePair) : Prop :=
  fst p <= 7 * Millisecond /\ snd p <> Millisecond.

Definition is_one (p : TimePair) : bool := snd p >? Millisecond.

End Cheapo.

(** ** samsung/samsung.go: the addressed 32-bit code *)

Module Samsung.

Record Frame : Type := mkFrame { Addr : Z; Cmd : Z }.

Record StateMachine : Type := mkSM { buf : Z; bitcount : Z }.

Inductive error : Type := ErrFrameAlloc.

Definition NewStateMachine : StateMachine := {| buf := 0; bitcount := 0 |}.

(** [func (f *Frame) UnmarshalFrame(buf uint32) error].  The receiver is a
    pointer: [None] is the nil pointer, [Some f] an allocated frame.  The
    result is the frame behind the pointer after the call and the error
    ([None] for Go's [nil] error). *)
Definition UnmarshalFrame (f : option Frame) (buf : Z)
  : option Frame * option error :=
  match f with
  | None => (None, Some ErrFrameAlloc)
  | Some _ =>
      (Some {| Addr := wrap_uint16 (Z.land buf 65535);
               Cmd := wrap_uint16 (Z.land (Z.shiftr buf 16) 65535) |},
       None)
  end.

Definition HandleTimePair (sm : StateMachine) (pair : TimePair)
  : option (StateMachine * list Frame) :=
  let '(on, off) := pair in
  if on >? 200 * Millisecond then Some (sm, [])
  else if off >? 3 * Millisecond then
    if on >? 3 * Millisecond
    then Some ({| buf := 0; bitcount := 0 |}, [])
    else Some (sm, [])
  else
    let buf1 :=
      if on >? Millisecond then
        match shl_uint32 1 (bitcount sm) with
        | None => None
        | Some m => Some (Z.lor (buf sm) m)
        end
      else Some (buf sm) in
    match buf1 with
    | None => None
    | Some b =>
        let sm' := {| buf := b; bitcount := wrap_int (bitcount sm + 1) |} in
        if negb (bitcount sm' =? 32) then Some (sm', [])
        else
          (* var f Frame; f.UnmarshalFrame(sm.buf); sm.CmdHandler(f) *)
          match fst (UnmarshalFrame (Some {| Addr := 0; Cmd := 0 |}) b) with
          | Some f => Some (sm', [f])
          | None => None
          end
    end.

Definition StartPair : TimePair := (6 * Millisecond, 3 * Millisecond).
Definition ZeroPair : TimePair := (562 * Microsecond, 1687 * Microsecond).
Definition OnePair : TimePair := (562 * Microsecond, 562 * Microsecond).

(** The loop body of [MarshalFrame]: [out[bit+1] = OnePair] or [ZeroPair]. *)
Definition marshal_bit (b : Z) (out : list TimePair) (bit : nat)
  : list TimePair :=
  if Z.land (Z.shiftr b (Z.of_nat bit)) 1 =? 1
  then <[S bit := OnePair]> out
  else <[S bit := ZeroPair]> out.

Definition MarshalFrame (f : Frame) : list TimePair :=
  let out := replicate 34 ((0, 0) : TimePair) in
  let out := <[0%nat := StartPair]> out in
  let b := Z.lor (wrap_uint32 (Z.shiftl (Cmd f) 16)) (Addr f) in
  let out := fold_left (marshal_bit b) (seq 0 32) out in
  <[33%nat := ZeroPair]> out.

End Samsung.

(** ** hexbug: the parity-checked 9-bit button code (rx.go) *)

Module Hexbug.

Record StateMachine : Type :=
  mkSM { rcvbuf : Z; bitcount : Z; parity : bool }.

Definition NewStateMachine : StateMachine :=
  {| rcvbuf := 0; bitcount := 0; parity := false |}.

Definition HandleTimePair (hb : StateMachine) (pair : TimePair)
  : option (StateMachine * list Z) :=
  let '(on, off) := pair in
  if off >? 1600 * Microsecond then
    Some ({| rcvbuf := 0; bitcount := 0; parity := false |}, [])
  else
    let hb1 :=
      if off >? 750 * Microsecond then
        match shl_int16 1 (bitcount hb) with
        | None => None
        | Some m => Some {| rcvbuf := Z.lor (rcvbuf hb) m;
                            bitcount := bitcount hb;
                            parity := negb (parity hb) |}
        end
      else Some hb in
    match hb1 with
    | None => None
    | Some hb1 =>
        let hb2 := {| rcvbuf := rcvbuf hb1;
                      bitcount := wrap_int (bitcount hb1 + 1);
                      parity := parity hb1 |} in
        if bitcount hb2 =? 9 then
          Some ({| rcvbuf := 0; bitcount := 0; parity := false |},
                if parity hb2 then [rcvbuf hb2] else [])
        else Some (hb2, [])
    end.

Definition non_start (p : TimePair) : Prop := snd p <= 1600 * Microsecond.

Definition is_one (p : TimePair) : bool := snd p >? 750 * Microsecond.

(** Number of pulses of a stream that the decoder reads as a 1. *)
Fixpoint ones (ps : list TimePair) : nat :=
  match ps with
  | [] => 0%nat
  | p :: ps' => ((if is_one p then 1 else 0) + ones ps')%nat
  end.

(** The command constants of the package. *)
Definition CmdStop : Z := 0.
Definition CmdFwdMask : Z := 1.
Definition CmdBackMask : Z := 2.
Definition CmdLeftMask : Z := 4.
Definition CmdRightMask : Z := 8.
Definition CmdRightWeapMask : Z := 16.
Definition CmdLeftWeapMask : Z := 32.
Definition CmdButtonMask : Z := 63.
Definition CmdChannelMask : Z := 192.

Definition CH1 : Z := 0.
Definition CH2 : Z := 64.
Definition CH3 : Z := 192.
Definition CH4 : Z := 128.

Definition hbStart : TimePair := (1750 * Microsecond, 350 * Microsecond).
Definition hbZero : TimePair := (350 * Microsecond, 350 * Microsecond).
Definition hbOne : TimePair := (1000 * Microsecond, 350 * Microsecond).

(** One turn of the loop of [Cmd.MarshalFrame]; the loop state is the
    output array, the command being shifted out and the parity flag.  [c] is
    an [int16]: [c&1] and the arithmetic [c >>= 1] are [Z.land] and
    [Z.shiftr] on its value, and a right shift cannot leave the range. *)
Definition marshal_step (st : list TimePair * Z * bool) (i : nat)
  : list TimePair * Z * bool :=
  let '(out, c, par) := st in
  if Z.land c 1 =? 1
  then (<[i := hbOne]> out, Z.shiftr c 1, negb par)
  else (<[i := hbZero]> out, Z.shiftr c 1, par).

(** [func (c Cmd) MarshalFrame() []irtrx.TimePair]. *)
Definition MarshalFrame (c : Z) : list TimePair :=
  let out := <[0%nat := hbStart]> (replicate 10 ((0, 0) : TimePair)) in
  let '(out, _, par) := fold_left marshal_step (seq 1 8) (out, c, true) in
  if par then <[9%nat := hbOne]> out else <[9%nat := hbZero]> out.

End Hexbug.

(** ** Go's [time] package, as far as the decoders use it *)

(** An instant, in nanoseconds; [0] is the zero [time.Time]. *)
Definition Time : Type := Z.

Definition Time_IsZero (t : Time) : bool := t =? 0.

(** [time.Since(t)], read at instant [now]: the difference, saturated to the
    range of a [Duration] as [Time.Sub] does. *)
Definition time_Since (now t : Time) : Duration :=
  Z.max minDuration (Z.min maxDuration (now - t)).

(** [lessThanHalf(x, y)]: [uint64(x)+uint64(x) < uint64(y)]. *)
Definition lessThanHalf (x y : Duration) : bool :=
  wrap_uint64 (wrap_uint64 x + wrap_uint64 x) <? wrap_uint64 y.

(** [Duration.Round]: round [d] to the nearest multiple of [m], halfway
    values away from zero; [%] truncates toward zero. *)
Definition Duration_Round (d m : Duration) : Duration :=
  if m <=? 0 then d
  else
    let r := Z.rem d m in
    if d <? 0 then
      let r := wrap_int64 (- r) in
      if lessThanHalf r m then wrap_int64 (d + r)
      else
        let d1 := wrap_int64 (d - m + r) in
        if d1 <? d then d1 else minDuration
    else
      if lessThanHalf r m then wrap_int64 (d - r)
      else
        let d1 := wrap_int64 (d + m - r) in
        if d1 >? d then d1 else maxDuration.

(** ** ppm: the proportional multi-channel decoder

    The sources hold two revisions of this package.  The embedding follows
    the later one, whose handler ignores channel pulses until a first
    synchronisation marker has been seen, rounds the stored value to 10
    microseconds and whose accessors go through [IsSafe]. *)

Module PPM.

Definition minimumTimeBetweenFrames : Duration := 6 * Millisecond.

Definition SafeChannelsMid : list Duration :=
  replicate 16 (1500 * Microsecond).
Definition SafeChannelsBottom : list Duration :=
  replicate 16 (1000 * Microsecond).

(** [channels] and [safeChannels] are [[16]time.Duration] arrays. *)
Record StateMachine : Type := mkSM {
  channels : list Duration;
  safeChannels : list Duration;
  Timeout : Duration;
  currentCh : Z;
  last : Time
}.

Definition NewStateMachine : StateMachine :=
  {| channels := SafeChannelsMid;
     safeChannels := SafeChannelsMid;
     Timeout := wrap_int64 (100 * minimumTimeBetweenFrames);
     currentCh := 0;
     last := 0 |}.

(** Go's checked array read [a[i]]: [None] is the index panic. *)
Definition index (a : list Duration) (i : Z) : option Duration :=
  if i <? 0 then None else a !! Z.to_nat i.

(** Go's checked array write [a[i] = v]. *)
Definition store (a : list Duration) (i : Z) (v : Duration)
  : option (list Duration) :=
  if (i <? 0) || (Z.of_nat (length a) <=? i) then None
  else Some (<[Z.to_nat i := v]> a).

(** [HandleTimePair]; [now] is what [time.Now()] returns during the call. *)
Definition HandleTimePair (sm : StateMachine) (now : Time) (pair : TimePair)
  : option StateMachine :=
  let '(on, off) := pair in
  if on >? minimumTimeBetweenFrames then
    Some {| channels := channels sm; safeChannels := safeChannels sm;
            Timeout := Timeout sm; currentCh := 0; last := now |}
  else if Time_IsZero (last sm) then Some sm
  else if currentCh sm >=? Z.of_nat (length (channels sm)) then Some sm
  else
    let on := wrap_int64 (on + off) in
    match store (channels sm) (currentCh sm)
                (Duration_Round on (10 * Microsecond)) with
    | None => None
    | Some chs =>
        Some {| channels := chs; safeChannels := safeChannels sm;
                Timeout := Timeout sm;
                currentCh := wrap_int (currentCh sm + 1);
                last := last sm |}
    end.

Definition SetSafeChannels (sm : StateMachine) (sc : list Duration)
  : StateMachine :=
  {| channels := channels sm; safeChannels := sc; Timeout := Timeout sm;
     currentCh := currentCh sm; last := last sm |}.

Definition IsSafe (sm : StateMachine) (now : Time) : bool :=
  time_Since now (last sm) >? Timeout sm.

Definition Channel (sm : StateMachine) (now : Time) (ch : Z)
  : option Duration :=
  if IsSafe sm now then index (safeChannels sm) ch
  else index (channels sm) ch.

Definition Channels (sm : StateMachine) (now : Time) : list Duration :=
  if IsSafe sm now then safeChannels sm else channels sm.

(** The decoder fed a stream of pulses, each with the instant at which
    its handler call reads the clock. *)
Fixpoint feed (sm : StateMachine) (evs : list (Time * TimePair))
  : option StateMachine :=
  match evs with
  | [] => Some sm
  | (now, p) :: evs' =>
      match HandleTimePair sm now p with
      | None => None
      | Some sm' => feed sm' evs'
      end
  end.

(** Both arrays have their declared length. *)
Definition well_formed (sm : StateMachine) : Prop :=
  length (channels sm) = 16%nat /\ length (safeChannels sm) = 16%nat.

End PPM.

(** ** ppm, earlier revision

    The earlier of the two revisions of the package: the same struct, but
    [NewStateMachine] leaves [channels] zeroed, the handler has no guard on
    a zero [last] and stores the unrounded sum, and [Channel] tests the
    timeout itself.  The handler's threshold is the package constant
    [minimumTimeBetweenFrames]. *)

Module PPMEarlier.

Definition NewStateMachine : PPM.StateMachine :=
  {| PPM.channels := replicate 16 0;
     PPM.safeChannels := PPM.SafeChannelsMid;
     PPM.Timeout := wrap_int64 (100 * PPM.minimumTimeBetweenFrames);
     PPM.currentCh := 0;
     PPM.last := 0 |}.

Definition HandleTimePair
  (p : PPM.StateMachine) (now : Time) (pair : TimePair)
  : option PPM.StateMachine :=
  let '(on, off) := pair in
  if on >? PPM.minimumTimeBetweenFrames then
    Some {| PPM.channels := PPM.channels p;
            PPM.safeChannels := PPM.safeChannels p;
            PPM.Timeout := PPM.Timeout p; PPM.currentCh := 0;
            PPM.last := now |}
  else if PPM.currentCh p >=? Z.of_nat (length (PPM.channels p)) then Some p
  else
    match PPM.store (PPM.channels p) (PPM.currentCh p)
                    (wrap_int64 (on + off)) with
    | None => None
    | Some chs =>
        Some {| PPM.channels := chs; PPM.safeChannels := PPM.safeChannels p;
                PPM.Timeout := PPM.Timeout p;
                PPM.currentCh := wrap_int (PPM.currentCh p + 1);
                PPM.last := PPM.last p |}
    end.

Definition Channel (p : PPM.StateMachine) (now : Time) (ch : Z)
  : option Duration :=
  if time_Since now (PPM.last p) >? PPM.Timeout p
  then PPM.index (PPM.safeChannels p) ch
  else PPM.index (PPM.channels p) ch.

End PPMEarlier.

(** ** rx.go: the fan-out dispatcher *)

Module Rx.
Section Multi.
Context {St Call : Type}.

(** The method of the [RxStateMachine] interface.  The members of a
    dispatcher are references to state machines that are mutated in place:
    [store] holds the machines, a member is an index into it, and the same
    machine can be registered more than once.  A member that refers to no
    machine is a nil interface, whose method call panics. *)
Variable handle : St -> TimePair -> option (St * list Call).

(** [func MultiRxStateMachine(rsm ...RxStateMachine) multiRxStateMachine]. *)
Definition MultiRxStateMachine (rsm : list nat) : list nat := rsm.

(** [func (mrsm multiRxStateMachine) HandleTimePair(pair TimePair)]: the
    members in slice order; a panic in one ends the call. *)
Fixpoint HandleTimePair (mrsm : list nat) (store : list St) (pair : TimePair)
  : option (list St * list Call) :=
  match mrsm with
  | [] => Some (store, [])
  | r :: rest =>
      match store !! r with
      | None => None
      | Some m =>
          match handle m pair with
          | None => None
          | Some (m', cs) =>
              match HandleTimePair rest (<[r := m']> store) pair with
              | None => None
              | Some (store', cs') => Some (store', cs ++ cs')
              end
          end
      end
  end.
End Multi.

Section Device.
Context {St Call : Type}.
Variable handle : St -> TimePair -> option (St * list Call).

(** [type RxDevice struct]; the pin is hardware and [pulseCount] is never
    used, so the record keeps the three fields the handlers work on. *)
Record RxDevice : Type := mkRxDevice {
  lastPulse : Time;
  lastHigh : Duration;
  stateMachine : St
}.

(** [func (rx *RxDevice) interruptHandler(interruptPin Pin)].  The inputs of
    a call are what it reads from outside: [ptime] is the [time.Now()] at
    entry, [tsince] the later clock reading inside [time.Since], and [high]
    the level [interruptPin.Get()] returns. *)
Definition interruptHandler
  (rx : RxDevice) (ptime tsince : Time) (high : bool)
  : option (RxDevice * list Call) :=
  if high then
    match handle (stateMachine rx)
                 (lastHigh rx, time_Since tsince (lastPulse rx)) with
    | None => None
    | Some (m', cs) =>
        Some ({| lastPulse := ptime; lastHigh := lastHigh rx;
                 stateMachine := m' |}, cs)
    end
  else
    Some ({| lastPulse := ptime;
             lastHigh := time_Since tsince (lastPulse rx);
             stateMachine := stateMachine rx |}, []).

(** [func (rx *RxDevice) invertedInterruptHandler(interruptPin Pin)]. *)
Definition invertedInterruptHandler
  (rx : RxDevice) (ptime tsince : Time) (high : bool)
  : option (RxDevice * list Call) :=
  if high then
    Some ({| lastPulse := ptime;
             lastHigh := time_Since tsince (lastPulse rx);
             stateMachine := stateMachine rx |}, [])
  else
    match handle (stateMachine rx)
                 (lastHigh rx, time_Since tsince (lastPulse rx)) with
    | None => None
    | Some (m', cs) =>
        Some ({| lastPulse := ptime; lastHigh := lastHigh rx;
                 stateMachine := m' |}, cs)
    end.

(** A device taking a series of interrupts, each with its three inputs. *)
Fixpoint interrupts
  (handler : RxDevice -> Time -> Time -> bool -> option (RxDevice * list Call))
  (rx : RxDevice) (evs : list (Time * Time * bool))
  : option (RxDevice * list Call) :=
  match evs with
  | [] => Some (rx, [])
  | (ptime, tsince, high) :: evs' =>
      match handler rx ptime tsince high with
      | None => None
      | Some (rx', cs) =>
          match interrupts handler rx' evs' with
          | None => None
          | Some (rx'', cs') => Some (rx'', cs ++ cs')
          end
      end
  end.
End Device.
End Rx.

(** ** Notions used to state the properties *)

(** Bit [i] of the pattern a pulse stream spells, least significant first. *)
Definition cheapo_bit_at (ps : list TimePair) (i : Z) : bool :=
  match ps !! Z.to_nat i with
  | Some p => Cheapo.is_one p
  | None => false
  end.

(** The same for the parity-checked decoder's readings. *)
Definition hexbug_bit_at (ps : list TimePair) (i : Z) : bool :=
  match ps !! Z.to_nat i with
  | Some p => Hexbug.is_one p
  | None => false
  end.

(** What one bit pulse does to buffer and parity, before the counter is
    advanced and tested. *)
Definition hexbug_sample (hb : Hexbug.StateMachine) (p : TimePair)
  : Hexbug.StateMachine :=
  {| Hexbug.rcvbuf :=
       if Hexbug.is_one p
       then Z.lor (Hexbug.rcvbuf hb) (2 ^ Hexbug.bitcount hb)
       else Hexbug.rcvbuf hb;
     Hexbug.bitcount := Hexbug.bitcount hb + 1;
     Hexbug.parity := xorb (Hexbug.parity hb) (Hexbug.is_one p) |}.

(** The value a channel pulse decodes to: on plus off time, rounded to 10
    microseconds. *)
Definition ppm_decoded (p : TimePair) : Duration :=
  Duration_Round (wrap_int64 (fst p + snd p)) (10 * Microsecond).

(** A pulse that is not a synchronisation marker. *)
Definition ppm_channel_pulse (ev : Time * TimePair) : Prop :=
  fst (snd ev) <= PPM.minimumTimeBetweenFrames.

(** The frame the addressed decoder hands to its callback for a raw word. *)
Definition samsung_frame_of (b : Z) : Samsung.Frame :=
  {| Samsung.Addr := wrap_uint16 (Z.land b 65535);
     Samsung.Cmd := wrap_uint16 (Z.land (Z.shiftr b 16) 65535) |}.

(** A pulse the addressed decoder samples as a bit: outside the no-signal
    band and outside the start-of-frame band. *)
Definition samsung_bit_pulse (p : TimePair) : Prop :=
  fst p <= 200 * Millisecond /\ snd p <= 3 * Millisecond.

(** A pulse the addressed decoder takes as a start of frame. *)
Definition samsung_start_pulse (p : TimePair) : Prop :=
  3 * Millisecond < fst p <= 200 * Millisecond /\ snd p > 3 * Millisecond.

Definition samsung_is_one (p : TimePair) : bool := fst p >? Millisecond.

Definition samsung_bit_at (ps : list TimePair) (i : Z) : bool :=
  match ps !! Z.to_nat i with
  | Some p => samsung_is_one p
  | None => false
  end.

(** The raw word [MarshalFrame] spells out: [uint32(Cmd)<<16 | uint32(Addr)]. *)
Definition samsung_word (f : Samsung.Frame) : Z :=
  Z.lor (wrap_uint32 (Z.shiftl (Samsung.Cmd f) 16)) (Samsung.Addr f).

(** Parity of the eight data bits of a command: [true] for an odd number
    of ones. *)
Definition hexbug_data_parity (c : Z) : bool :=
  fold_right xorb false (map (fun i => Z.testbit c (Z.of_nat i)) (seq 0 8)).

(** The calls one registered machine makes for a pair. *)
Definition member_calls {St Call : Type}
  (handle : St -> TimePair -> option (St * list Call))
  (store : list St) (pair : TimePair) (r : nat) : list Call :=
  match store !! r with
  | Some m => match handle m pair with
              | Some (_, cs) => cs
              | None => []
              end
  | None => []
  end.

(** The interrupts of a signal that starts at instant [t] and goes through
    the given phases: each phase lasts for its first duration, ends with an
    edge to level [lvl], lasts for its second duration and ends with an edge
    to the opposite level.  The clock is read as the instant of the edge. *)
Fixpoint rx_edges (lvl : bool) (t : Time) (phases : list TimePair)
  : list (Time * Time * bool) :=
  match phases with
  | [] => []
  | (a, b) :: rest =>
      (t + a, t + a, lvl) :: (t + a + b, t + a + b, negb lvl)
        :: rx_edges lvl (t + a + b) rest
  end.

(** Phase durations a [Duration] can hold. *)
Definition rx_phase (p : TimePair) : Prop :=
  0 <= fst p <= maxDuration /\ 0 <= snd p <= maxDuration.

(** The number of [hbOne] pairs in a list of pairs. *)
Definition hexbug_ones_sent (l : list TimePair) : nat :=
  length (List.filter
            (fun p => (fst p =? fst Hexbug.hbOne) && (snd p =? snd Hexbug.hbOne))
            l).

(** * Properties *)

(** ** Machine-integer facts *)

Lemma wrap_int64_small (x : Z) :
  - 2 ^ 63 <= x < 2 ^ 63 -> wrap_int64 x = x.
Proof.
  intros H. unfold wrap_int64. rewrite Z.mod_small; lia.
Qed.

Lemma wrap_int_small (x : Z) : - 2 ^ 63 <= x < 2 ^ 63 -> wrap_int x = x.
Proof. apply wrap_int64_small. Qed.

Lemma wrap_uint32_range (x : Z) : 0 <= wrap_uint32 x < 2 ^ 32.
Proof. unfold wrap_uint32. apply Z.mod_pos_bound. lia. Qed.

(** Bit [i] of [1 << n] at 32 bits: set exactly when [i = n < 32]. *)
Lemma testbit_one_shl32 (n i : Z) :
  0 <= n -> 0 <= i ->
  Z.testbit (wrap_uint32 (Z.shiftl 1 n)) i = (i =? n) && (i <? 32).
Proof.
  intros Hn Hi. unfold wrap_uint32.
  destruct (Z.ltb_spec i 32) as [Hlt|Hge].
  - rewrite Z.mod_pow2_bits_low by lia.
    rewrite Z.shiftl_spec by lia.
    rewrite andb_true_r.
    destruct (Z.eqb_spec i n) as [->|Hne].
    + now rewrite Z.sub_diag.
    + destruct (Z.lt_ge_cases i n).
      * rewrite Z.testbit_neg_r by lia. reflexivity.
      * replace (i - n) with (Z.succ (i - n - 1)) by lia.
        change 1 with (2 * 0 + 1) at 1.
        rewrite Z.testbit_odd_succ by lia. apply Z.testbit_0_l.
  - rewrite Z.mod_pow2_bits_high by lia. now rewrite andb_false_r.
Qed.

Lemma shl_uint32_nonneg (n : Z) :
  0 <= n -> shl_uint32 1 n = Some (wrap_uint32 (Z.shiftl 1 n)).
Proof.
  intros Hn. unfold shl_uint32.
  destruct (Z.ltb_spec n 0); [lia | reflexivity].
Qed.

(** Or-ing two [n]-bit values gives an [n]-bit value. *)
Lemma lor_pow2_range (n b m : Z) :
  0 <= n -> 0 <= b < 2 ^ n -> 0 <= m < 2 ^ n -> 0 <= Z.lor b m < 2 ^ n.
Proof.
  intros Hn Hb Hm.
  assert (H0 : 0 <= Z.lor b m) by (apply Z.lor_nonneg; lia).
  split; [exact H0|].
  destruct (Z.eq_dec (Z.lor b m) 0) as [->|Hnz]; [lia|].
  assert (Hpos : 0 < n).
  { destruct (Z.eq_dec n 0) as [->|]; [|lia].
    change (2 ^ 0) with 1 in *.
    assert (b = 0) by lia. assert (m = 0) by lia. subst. now elim Hnz. }
  apply Z.log2_lt_pow2; [lia|].
  rewrite Z.log2_lor by lia.
  apply Z.max_lub_lt.
  - destruct (Z.eq_dec b 0) as [->|]; [simpl; lia|].
    apply Z.log2_lt_pow2; lia.
  - destruct (Z.eq_dec m 0) as [->|]; [simpl; lia|].
    apply Z.log2_lt_pow2; lia.
Qed.

Lemma lor_uint32_range (b m : Z) :
  0 <= b < 2 ^ 32 -> 0 <= m < 2 ^ 32 -> 0 <= Z.lor b m < 2 ^ 32.
Proof. apply lor_pow2_range. lia. Qed.

Section RunFacts.
Context {St Call : Type}.
Variable step : St -> TimePair -> option (St * list Call).

Lemma run_app (s : St) (ps qs : list TimePair) :
  run step s (ps ++ qs) =
  match run step s ps with
  | None => None
  | Some (s', cs) =>
      match run step s' qs with
      | None => None
      | Some (s'', cs') => Some (s'', cs ++ cs')
      end
  end.
Proof.
  revert s; induction ps as [|p ps IH]; intros s; simpl.
  - destruct (run step s qs) as [[s' cs]|]; reflexivity.
  - destruct (step s p) as [[s1 c1]|]; [|reflexivity].
    rewrite IH. destruct (run step s1 ps) as [[s2 c2]|]; [|reflexivity].
    destruct (run step s2 qs) as [[s3 c3]|]; [|reflexivity].
    now rewrite app_assoc.
Qed.
End RunFacts.

(** ** The generic fixed-length code *)

(** One classified pulse: the counter advances and at most the bit at the
    old counter position is added. *)
Lemma cheapo_classify_step (c : Cheapo.StateMachine) (p : TimePair) :
  Cheapo.classified p -> 0 <= Cheapo.bitcount c < max_int ->
  exists c',
    Cheapo.classify c (snd p) = Some c' /\
    Cheapo.bitcount c' = Cheapo.bitcount c + 1 /\
    forall i, 0 <= i ->
      Z.testbit (Cheapo.buf c') i =
      Z.testbit (Cheapo.buf c) i
      || (Cheapo.is_one p && (i =? Cheapo.bitcount c) && (i <? 32)).
Proof.
  intros [_ Hne] Hk. unfold max_int in Hk. unfold Cheapo.classify, Cheapo.is_one.
  destruct (Z.gtb_spec (snd p) Millisecond) as [Hgt|Hle].
  - rewrite shl_uint32_nonneg by lia. eexists; split; [reflexivity|]. simpl.
    split; [apply wrap_int_small; lia|].
    intros i Hi. rewrite Z.lor_spec, testbit_one_shl32 by lia. reflexivity.
  - destruct (Z.ltb_spec (snd p) Millisecond) as [Hlt|Hge]; [|lia].
    eexists; split; [reflexivity|]. simpl.
    split; [apply wrap_int_small; lia|].
    intros i Hi. now rewrite orb_false_r.
Qed.

(** The handler on a classified pulse: [classify], then the delivery test. *)
Lemma cheapo_handle_classified (c : Cheapo.StateMachine) (p : TimePair) :
  Cheapo.classified p -> 0 <= Cheapo.bitcount c < max_int ->
  exists c',
    Cheapo.HandleTimePair c p =
      Some (c', if Cheapo.bitcount c' <? 10 then [] else [Cheapo.buf c']) /\
    Cheapo.bitcount c' = Cheapo.bitcount c + 1 /\
    forall i, 0 <= i ->
      Z.testbit (Cheapo.buf c') i =
      Z.testbit (Cheapo.buf c) i
      || (Cheapo.is_one p && (i =? Cheapo.bitcount c) && (i <? 32)).
Proof.
  intros Hp Hk.
  destruct (cheapo_classify_step c p Hp Hk) as (c' & Hc & Hk' & Hb).
  exists c'. split; [|now split].
  destruct p as [on off]. destruct Hp as [Hon _]. cbn [fst snd] in *.
  unfold Cheapo.HandleTimePair.
  destruct (Z.gtb_spec on (7 * Millisecond)); [lia|].
  rewrite Hc. now destruct (Cheapo.bitcount c' <? 10).
Qed.

(** Up to the tenth bit: the callback fires once, when the counter reaches
    10, and the buffer holds the pulses' bits from the old counter on. *)
Lemma cheapo_run_upto_10 (ps : list TimePair) :
  forall c : Cheapo.StateMachine,
    Forall Cheapo.classified ps ->
    0 <= Cheapo.bitcount c ->
    Cheapo.bitcount c + Z.of_nat (length ps) <= 10 ->
    exists c',
      run Cheapo.HandleTimePair c ps =
        Some (c', if (Z.of_nat (length ps) =? 0)
                     || (Cheapo.bitcount c + Z.of_nat (length ps) <? 10)
                  then [] else [Cheapo.buf c']) /\
      Cheapo.bitcount c' = Cheapo.bitcount c + Z.of_nat (length ps) /\
      forall i, 0 <= i ->
        Z.testbit (Cheapo.buf c') i =
        Z.testbit (Cheapo.buf c) i
        || ((Cheapo.bitcount c <=? i)
            && cheapo_bit_at ps (i - Cheapo.bitcount c)).
Proof.
  induction ps as [|p ps IH]; intros c Hcl Hk Hlen.
  - exists c. simpl. split; [reflexivity|]. split; [lia|].
    intros i Hi. unfold cheapo_bit_at. rewrite lookup_nil.
    now rewrite andb_false_r, orb_false_r.
  - inversion Hcl as [|? ? Hp Hps]; subst.
    cbn [length] in *. rewrite Nat2Z.inj_succ in *.
    destruct (cheapo_handle_classified c p Hp) as (c1 & Hc1 & Hk1 & Hb1);
      [unfold max_int; lia|].
    destruct (IH c1 Hps) as (c2 & Hrun & Hk2 & Hb2); [lia|lia|].
    clear IH. exists c2. split; [|split].
    + cbn [run]. rewrite Hc1, Hrun. f_equal. f_equal.
      destruct (Z.eqb_spec (Z.succ (Z.of_nat (length ps))) 0); [lia|].
      cbn [orb].
      destruct (Z.eqb_spec (Z.of_nat (length ps)) 0) as [Hz|Hnz]; cbn [orb].
      * destruct ps; [|simpl in Hz; lia].
        simpl in Hrun. inversion Hrun; subst c2. rewrite Hk1.
        rewrite app_nil_r.
        replace (Cheapo.bitcount c + Z.succ (Z.of_nat (length (@nil TimePair))))
          with (Cheapo.bitcount c + 1) by (simpl; lia).
        reflexivity.
      * destruct (Z.ltb_spec (Cheapo.bitcount c1) 10); [|lia].
        cbn [app]. rewrite Hk1.
        replace (Cheapo.bitcount c + 1 + Z.of_nat (length ps))
          with (Cheapo.bitcount c + Z.succ (Z.of_nat (length ps))) by lia.
        reflexivity.
    + lia.
    + intros i Hi. rewrite Hb2, Hb1 by lia. rewrite Hk1.
      unfold cheapo_bit_at.
      destruct (Z.eqb_spec i (Cheapo.bitcount c)) as [->|Hne].
      * rewrite Z.sub_diag. cbn [Z.to_nat lookup list_lookup].
        destruct (Z.leb_spec (Cheapo.bitcount c + 1) (Cheapo.bitcount c)); [lia|].
        destruct (Z.leb_spec (Cheapo.bitcount c) (Cheapo.bitcount c)); [|lia].
        destruct (Z.ltb_spec (Cheapo.bitcount c) 32); [|lia].
        now rewrite !andb_true_r, orb_false_r.
      * rewrite andb_false_r, andb_false_l, orb_false_r.
        destruct (Z.leb_spec (Cheapo.bitcount c + 1) i);
          destruct (Z.leb_spec (Cheapo.bitcount c) i); try lia; [|reflexivity].
        replace (Z.to_nat (i - Cheapo.bitcount c))
          with (S (Z.to_nat (i - (Cheapo.bitcount c + 1)))) by lia.
        reflexivity.
Qed.

(** A start marker resets the decoder, whatever its state, and delivers
    nothing. *)
Lemma cheapo_start_marker (c : Cheapo.StateMachine) (p : TimePair) :
  fst p > 7 * Millisecond ->
  Cheapo.HandleTimePair c p = Some (Cheapo.NewStateMachine, []).
Proof.
  intros Hp. destruct p as [on off]. cbn [fst] in Hp.
  unfold Cheapo.HandleTimePair.
  destruct (Z.gtb_spec on (7 * Millisecond)); [reflexivity | lia].
Qed.

(** C9: a pulse whose assert-duration exceeds 7 ms resets accumulator and
    bit counter to zero without a callback; ten classified pulses fed after
    it produce exactly one callback, whose value has bit [i] set exactly when
    the [i]-th pulse's deassert-duration exceeded the 1 ms bit threshold (and
    no bit from position 10 on). *)
Theorem cheapo_start_then_ten_bits
  (c : Cheapo.StateMachine) (start : TimePair) (ps : list TimePair) :
  fst start > 7 * Millisecond ->
  length ps = 10%nat ->
  Forall Cheapo.classified ps ->
  Cheapo.HandleTimePair c start
    = Some ({| Cheapo.buf := 0; Cheapo.bitcount := 0 |}, []) /\
  exists v,
    run Cheapo.HandleTimePair {| Cheapo.buf := 0; Cheapo.bitcount := 0 |} ps
      = Some ({| Cheapo.buf := v; Cheapo.bitcount := 10 |}, [v]) /\
    (forall (i : nat) (p : TimePair),
        ps !! i = Some p -> Z.testbit v (Z.of_nat i) = Cheapo.is_one p) /\
    (forall i, 10 <= i -> Z.testbit v i = false).
Proof.
  intros Hstart Hlen Hcl. split; [now apply cheapo_start_marker|].
  destruct (cheapo_run_upto_10 ps {| Cheapo.buf := 0; Cheapo.bitcount := 0 |} Hcl)
    as (c' & Hrun & Hk & Hb); cbn [Cheapo.bitcount Cheapo.buf] in *;
    [lia | rewrite Hlen; simpl; lia |].
  rewrite Hlen in Hrun, Hk. simpl in Hrun, Hk.
  destruct c' as [v k]. cbn [Cheapo.bitcount Cheapo.buf] in *. subst k.
  exists v. split; [exact Hrun|]. split.
  - intros i p Hi. rewrite Hb by lia. rewrite Z.testbit_0_l. cbn [orb].
    unfold cheapo_bit_at. rewrite Z.sub_0_r, Nat2Z.id, Hi.
    destruct (Z.leb_spec 0 (Z.of_nat i)); [reflexivity | lia].
  - intros i Hi. rewrite Hb by lia. rewrite Z.testbit_0_l. cbn [orb].
    unfold cheapo_bit_at. rewrite Z.sub_0_r.
    rewrite lookup_ge_None_2 by (rewrite Hlen; lia).
    now rewrite andb_false_r.
Qed.

Lemma cheapo_start_then_ten_bits_witness :
  exists v,
    run Cheapo.HandleTimePair {| Cheapo.buf := 0; Cheapo.bitcount := 0 |}
      [(500000, 1600000); (500000, 500000); (500000, 1600000);
       (500000, 1600000); (500000, 500000); (500000, 500000);
       (500000, 500000); (500000, 1600000); (500000, 500000);
       (500000, 1600000)]
      = Some ({| Cheapo.buf := v; Cheapo.bitcount := 10 |}, [v]).
Proof.
  destruct (cheapo_start_then_ten_bits
              {| Cheapo.buf := 77; Cheapo.bitcount := 4 |}
              (9000000, 4500000)
              [(500000, 1600000); (500000, 500000); (500000, 1600000);
               (500000, 1600000); (500000, 500000); (500000, 500000);
               (500000, 500000); (500000, 1600000); (500000, 500000);
               (500000, 1600000)]) as [_ (v & Hv & _)].
  - reflexivity.
  - reflexivity.
  - repeat constructor; vm_compute; discriminate.
  - exists v. exact Hv.
Defined.

(** After the tenth bit every classified pulse delivers again. *)
Lemma cheapo_run_past_10 (ps : list TimePair) :
  forall c : Cheapo.StateMachine,
    Forall Cheapo.classified ps ->
    10 <= Cheapo.bitcount c ->
    Cheapo.bitcount c + Z.of_nat (length ps) <= max_int ->
    exists c' calls,
      run Cheapo.HandleTimePair c ps = Some (c', calls) /\
      length calls = length ps /\
      Cheapo.bitcount c' = Cheapo.bitcount c + Z.of_nat (length ps).
Proof.
  induction ps as [|p ps IH]; intros c Hcl Hk Hlen.
  - exists c, []. simpl. repeat split; lia.
  - inversion Hcl as [|? ? Hp Hps]; subst.
    cbn [length] in *. rewrite Nat2Z.inj_succ in *.
    destruct (cheapo_handle_classified c p Hp) as (c1 & Hc1 & Hk1 & _); [lia|].
    destruct (IH c1 Hps) as (c2 & calls & Hrun & Hn & Hk2); [lia|lia|].
    destruct (Z.ltb_spec (Cheapo.bitcount c1) 10); [lia|].
    exists c2, (Cheapo.buf c1 :: calls). cbn [run]. rewrite Hc1, Hrun.
    repeat split; [simpl; lia | lia].
Qed.

(** C10: delivering a frame resets nothing.  Once the bit counter has
    reached 10 (and while it fits an [int]), a classified pulse delivers the
    accumulator again, keeps every bit already accumulated and moves the
    counter one further past the frame width; [n] such pulses make [n]
    deliveries; any pulse that is not a start marker leaves the counter at
    10 or more; only a start marker brings the reset state back. *)
Theorem cheapo_no_reset_after_delivery
  (c : Cheapo.StateMachine) (p : TimePair) (ps : list TimePair) :
  10 <= Cheapo.bitcount c ->
  Cheapo.bitcount c + 1 + Z.of_nat (length ps) <= max_int ->
  Forall Cheapo.classified ps ->
  (Cheapo.classified p ->
   exists c',
     Cheapo.HandleTimePair c p = Some (c', [Cheapo.buf c']) /\
     Cheapo.bitcount c' = Cheapo.bitcount c + 1 /\
     forall i, 0 <= i ->
       Z.testbit (Cheapo.buf c) i = true -> Z.testbit (Cheapo.buf c') i = true) /\
  (exists c' calls,
     run Cheapo.HandleTimePair c ps = Some (c', calls) /\
     length calls = length ps /\
     Cheapo.bitcount c' = Cheapo.bitcount c + Z.of_nat (length ps)) /\
  (fst p <= 7 * Millisecond ->
   exists c' calls,
     Cheapo.HandleTimePair c p = Some (c', calls) /\
     10 <= Cheapo.bitcount c' /\ c' <> Cheapo.NewStateMachine) /\
  (fst p > 7 * Millisecond ->
   Cheapo.HandleTimePair c p = Some (Cheapo.NewStateMachine, [])).
Proof.
  intros Hk Hmax Hcl. split; [|split; [|split]].
  - intros Hp.
    destruct (cheapo_handle_classified c p Hp) as (c' & Hc' & Hk' & Hb); [lia|].
    exists c'. destruct (Z.ltb_spec (Cheapo.bitcount c') 10); [lia|].
    split; [exact Hc'|]. split; [exact Hk'|].
    intros i Hi Hset. rewrite Hb, Hset by lia. reflexivity.
  - apply cheapo_run_past_10; [exact Hcl | exact Hk | lia].
  - intros Hon.
    destruct (Z.eq_dec (snd p) Millisecond) as [Heq|Hne].
    + destruct p as [on off]. cbn [fst snd] in *. subst off.
      unfold Cheapo.HandleTimePair, Cheapo.classify.
      destruct (Z.gtb_spec on (7 * Millisecond)); [lia|].
      rewrite Z.ltb_irrefl.
      destruct (Z.gtb_spec Millisecond Millisecond); [lia|].
      destruct (Z.ltb_spec (Cheapo.bitcount c) 10); [lia|].
      exists c, [Cheapo.buf c]. split; [reflexivity|]. split; [lia|].
      intros ->. simpl in Hk. lia.
    + destruct (cheapo_handle_classified c p (conj Hon Hne))
        as (c' & Hc' & Hk' & _); [lia|].
      eexists c', _. split; [exact Hc'|]. split; [lia|].
      intros ->. simpl in Hk'. lia.
  - apply cheapo_start_marker.
Qed.

Lemma cheapo_no_reset_after_delivery_witness :
  exists c',
    Cheapo.HandleTimePair {| Cheapo.buf := 1023; Cheapo.bitcount := 10 |}
                          (500000, 1600000)
      = Some (c', [Cheapo.buf c']) /\
    Cheapo.bitcount c' = 11.
Proof.
  destruct (cheapo_no_reset_after_delivery
              {| Cheapo.buf := 1023; Cheapo.bitcount := 10 |}
              (500000, 1600000) [(500000, 300000)]) as [H _].
  - simpl; lia.
  - vm_compute; discriminate.
  - repeat constructor; vm_compute; discriminate.
  - destruct H as (c' & Hc' & Hk' & _); [split; vm_compute; discriminate|].
    exists c'. split; [exact Hc' | exact Hk'].
Defined.

(** ** The parity-checked 9-bit code *)

Lemma shl_int16_small (n : Z) :
  0 <= n < 15 -> shl_int16 1 n = Some (2 ^ n).
Proof.
  intros Hn. unfold shl_int16, wrap_int16.
  destruct (Z.ltb_spec n 0); [lia|].
  rewrite Z.shiftl_1_l.
  assert (0 < 2 ^ n) by (apply Z.pow_pos_nonneg; lia).
  assert (2 ^ n < 2 ^ 15) by (apply Z.pow_lt_mono_r; lia).
  rewrite Z.mod_small by lia. f_equal. lia.
Qed.

Lemma hexbug_ones_odd (p : TimePair) (ps : list TimePair) :
  Nat.odd (Hexbug.ones (p :: ps))
  = xorb (Hexbug.is_one p) (Nat.odd (Hexbug.ones ps)).
Proof.
  cbn [Hexbug.ones]. destruct (Hexbug.is_one p).
  - change (1 + Hexbug.ones ps)%nat with (S (Hexbug.ones ps)).
    rewrite Nat.odd_succ, <- Nat.negb_odd. reflexivity.
  - reflexivity.
Qed.

Lemma hexbug_sample_bits (hb : Hexbug.StateMachine) (p : TimePair) (i : Z) :
  0 <= Hexbug.bitcount hb ->
  Z.testbit (Hexbug.rcvbuf (hexbug_sample hb p)) i =
  Z.testbit (Hexbug.rcvbuf hb) i
  || (Hexbug.is_one p && (i =? Hexbug.bitcount hb)).
Proof.
  intros Hk. cbn [hexbug_sample Hexbug.rcvbuf].
  destruct (Hexbug.is_one p); cbn [andb].
  - rewrite Z.lor_spec, Z.pow2_bits_eqb by lia. now rewrite Z.eqb_sym.
  - now rewrite orb_false_r.
Qed.

(** The handler on a bit pulse, for a counter within the frame. *)
Lemma hexbug_handle_bit (hb : Hexbug.StateMachine) (p : TimePair) :
  Hexbug.non_start p -> 0 <= Hexbug.bitcount hb < 9 ->
  Hexbug.HandleTimePair hb p =
  if Hexbug.bitcount hb =? 8
  then Some (Hexbug.NewStateMachine,
             if Hexbug.parity (hexbug_sample hb p)
             then [Hexbug.rcvbuf (hexbug_sample hb p)] else [])
  else Some (hexbug_sample hb p, []).
Proof.
  intros Hp Hk. destruct p as [on off]. unfold Hexbug.non_start in Hp.
  cbn [snd] in Hp. unfold Hexbug.HandleTimePair, hexbug_sample, Hexbug.is_one.
  cbn [snd].
  destruct (Z.gtb_spec off (1600 * Microsecond)); [lia|].
  destruct (off >? 750 * Microsecond).
  - rewrite shl_int16_small by lia. cbn [Hexbug.rcvbuf Hexbug.bitcount Hexbug.parity].
    rewrite wrap_int_small by lia.
    destruct (Z.eqb_spec (Hexbug.bitcount hb + 1) 9);
      destruct (Z.eqb_spec (Hexbug.bitcount hb) 8); try lia;
      now rewrite xorb_true_r.
  - rewrite wrap_int_small by lia.
    cbn [Hexbug.rcvbuf Hexbug.bitcount Hexbug.parity].
    destruct (Z.eqb_spec (Hexbug.bitcount hb + 1) 9);
      destruct (Z.eqb_spec (Hexbug.bitcount hb) 8); try lia;
      now rewrite xorb_false_r.
Qed.

(** Fewer than nine bits: nothing is delivered; counter, parity flag and
    buffer follow the pulses. *)
Lemma hexbug_run_below_9 (ps : list TimePair) :
  forall hb : Hexbug.StateMachine,
    Forall Hexbug.non_start ps ->
    0 <= Hexbug.bitcount hb ->
    Hexbug.bitcount hb + Z.of_nat (length ps) <= 8 ->
    exists hb',
      run Hexbug.HandleTimePair hb ps = Some (hb', []) /\
      Hexbug.bitcount hb' = Hexbug.bitcount hb + Z.of_nat (length ps) /\
      Hexbug.parity hb' = xorb (Hexbug.parity hb) (Nat.odd (Hexbug.ones ps)) /\
      forall i, 0 <= i ->
        Z.testbit (Hexbug.rcvbuf hb') i =
        Z.testbit (Hexbug.rcvbuf hb) i
        || ((Hexbug.bitcount hb <=? i)
            && hexbug_bit_at ps (i - Hexbug.bitcount hb)).
Proof.
  induction ps as [|p ps IH]; intros hb Hns Hk Hlen.
  - exists hb. simpl. split; [reflexivity|]. split; [lia|].
    split; [now rewrite xorb_false_r|].
    intros i Hi. unfold hexbug_bit_at. rewrite lookup_nil.
    now rewrite andb_false_r, orb_false_r.
  - inversion Hns as [|? ? Hp Hps]; subst.
    cbn [length] in *. rewrite Nat2Z.inj_succ in *.
    destruct (IH (hexbug_sample hb p) Hps) as (hb' & Hrun & Hk' & Hpar & Hb);
      cbn [hexbug_sample Hexbug.bitcount] in *; [lia|lia|].
    exists hb'. split; [|split; [|split]].
    + cbn [run]. rewrite hexbug_handle_bit by (auto; lia).
      destruct (Z.eqb_spec (Hexbug.bitcount hb) 8); [lia|].
      now rewrite Hrun.
    + lia.
    + rewrite Hpar, hexbug_ones_odd. cbn [hexbug_sample Hexbug.parity].
      now rewrite xorb_assoc.
    + intros i Hi. rewrite Hb by lia.
      fold (hexbug_sample hb p). rewrite hexbug_sample_bits by lia.
      unfold hexbug_bit_at.
      destruct (Z.eqb_spec i (Hexbug.bitcount hb)) as [->|Hne].
      * rewrite Z.sub_diag. cbn [Z.to_nat lookup list_lookup].
        destruct (Z.leb_spec (Hexbug.bitcount hb + 1) (Hexbug.bitcount hb)); [lia|].
        destruct (Z.leb_spec (Hexbug.bitcount hb) (Hexbug.bitcount hb)); [|lia].
        now rewrite andb_true_r, orb_false_r.
      * rewrite andb_false_r, orb_false_r.
        destruct (Z.leb_spec (Hexbug.bitcount hb + 1) i);
          destruct (Z.leb_spec (Hexbug.bitcount hb) i); try lia; [|reflexivity].
        replace (Z.to_nat (i - Hexbug.bitcount hb))
          with (S (Z.to_nat (i - (Hexbug.bitcount hb + 1)))) by lia.
        reflexivity.
Qed.

Lemma hexbug_ones_app (ps qs : list TimePair) :
  Hexbug.ones (ps ++ qs) = (Hexbug.ones ps + Hexbug.ones qs)%nat.
Proof.
  induction ps as [|p ps IH]; [reflexivity|].
  cbn [app Hexbug.ones]. rewrite IH. lia.
Qed.

(** Nine bit pulses from the reset state: the decoder is back in the reset
    state, and the accumulated nine bits were delivered exactly when the
    number of ones is odd. *)
Lemma hexbug_nine_pulses (ps : list TimePair) :
  length ps = 9%nat -> Forall Hexbug.non_start ps ->
  exists v,
    run Hexbug.HandleTimePair Hexbug.NewStateMachine ps
      = Some (Hexbug.NewStateMachine,
              if Nat.odd (Hexbug.ones ps) then [v] else []) /\
    (forall (i : nat) (p : TimePair),
        ps !! i = Some p -> Z.testbit v (Z.of_nat i) = Hexbug.is_one p) /\
    (forall i, 9 <= i -> Z.testbit v i = false).
Proof.
  intros Hlen Hns.
  rewrite <- (take_drop 8 ps) in Hns |- *.
  assert (Hq : length (take 8 ps) = 8%nat) by (rewrite length_take; lia).
  assert (Hd : length (drop 8 ps) = 1%nat) by (rewrite length_drop; lia).
  set (qs := take 8 ps) in *.
  destruct (drop 8 ps) as [|p [|? ?]]; try discriminate Hd. clear Hd Hlen.
  apply Forall_app in Hns. destruct Hns as [Hqs Hp].
  inversion Hp as [|? ? Hp' _]; subst. clear Hp.
  destruct (hexbug_run_below_9 qs Hexbug.NewStateMachine Hqs)
    as (hb & Hrun & Hk & Hpar & Hb); cbn [Hexbug.NewStateMachine Hexbug.bitcount];
    [lia | lia |].
  cbn [Hexbug.NewStateMachine Hexbug.bitcount Hexbug.parity Hexbug.rcvbuf] in *.
  assert (Hk8 : Hexbug.bitcount hb = 8) by lia. clear Hk. rename Hk8 into Hk.
  exists (Hexbug.rcvbuf (hexbug_sample hb p)). split; [|split].
  - rewrite run_app, Hrun. cbn [run].
    rewrite hexbug_handle_bit by (auto; lia).
    rewrite Hk. cbn [Z.eqb Pos.eqb]. cbn [app].
    rewrite hexbug_ones_app, Nat.odd_add. cbn [hexbug_sample Hexbug.parity].
    rewrite Hpar. cbn [xorb].
    replace (Nat.odd (Hexbug.ones [p])) with (Hexbug.is_one p)
      by (cbn [Hexbug.ones]; now destruct (Hexbug.is_one p)).
    destruct (Nat.odd (Hexbug.ones qs)), (Hexbug.is_one p); reflexivity.
  - intros i q Hi. rewrite hexbug_sample_bits by lia.
    rewrite Hb, Z.testbit_0_l, Hk by lia. cbn [orb].
    rewrite Z.sub_0_r. unfold hexbug_bit_at. rewrite Nat2Z.id.
    destruct (Z.leb_spec 0 (Z.of_nat i)); [|lia]. cbn [andb].
    destruct (Nat.lt_ge_cases i 8) as [Hlt|Hge].
    + rewrite lookup_app_l in Hi by lia. rewrite Hi.
      destruct (Z.eqb_spec (Z.of_nat i) 8); [lia|].
      now rewrite andb_false_r, orb_false_r.
    + rewrite lookup_app_r in Hi by lia. rewrite Hq in Hi.
      rewrite lookup_ge_None_2 by lia. cbn [orb].
      destruct (i - 8)%nat as [|n] eqn:E; [|destruct n; discriminate Hi].
      cbn in Hi. inversion Hi; subst q.
      destruct (Z.eqb_spec (Z.of_nat i) 8); [|lia].
      now rewrite andb_true_r.
  - intros i Hi. rewrite hexbug_sample_bits by lia.
    rewrite Hb, Z.testbit_0_l, Hk by lia. cbn [orb].
    rewrite Z.sub_0_r. unfold hexbug_bit_at.
    rewrite lookup_ge_None_2 by lia.
    destruct (Z.eqb_spec i 8); [lia|].
    now rewrite !andb_false_r.
Qed.

(** C3: from the reset state, nine bit pulses invoke the callback if and
    only if an odd number of them read as 1; an even count delivers nothing;
    either way accumulator, bit counter and parity flag are zero again after
    the ninth pulse. *)
Theorem hexbug_parity_acceptance (ps : list TimePair) :
  length ps = 9%nat -> Forall Hexbug.non_start ps ->
  exists calls,
    run Hexbug.HandleTimePair Hexbug.NewStateMachine ps
      = Some ({| Hexbug.rcvbuf := 0; Hexbug.bitcount := 0;
                 Hexbug.parity := false |}, calls) /\
    (length calls = 1%nat <-> Nat.odd (Hexbug.ones ps) = true) /\
    (calls = [] <-> Nat.odd (Hexbug.ones ps) = false).
Proof.
  intros Hlen Hns.
  destruct (hexbug_nine_pulses ps Hlen Hns) as (v & Hrun & _).
  eexists. split; [exact Hrun|].
  destruct (Nat.odd (Hexbug.ones ps)); split; split; intros H;
    try reflexivity; try discriminate H.
Qed.

Lemma hexbug_parity_acceptance_witness :
  exists calls,
    run Hexbug.HandleTimePair Hexbug.NewStateMachine
      [(350000, 1000000); (350000, 350000); (350000, 1000000);
       (350000, 350000); (350000, 350000); (350000, 350000);
       (350000, 350000); (350000, 350000); (350000, 1000000)]
    = Some (Hexbug.NewStateMachine, calls) /\
    length calls = 1%nat.
Proof.
  destruct (hexbug_parity_acceptance
              [(350000, 1000000); (350000, 350000); (350000, 1000000);
               (350000, 350000); (350000, 350000); (350000, 350000);
               (350000, 350000); (350000, 350000); (350000, 1000000)])
    as (calls & Hrun & [_ Hodd] & _).
  - reflexivity.
  - repeat constructor; vm_compute; discriminate.
  - exists calls. split; [exact Hrun | apply Hodd; reflexivity].
Defined.

(** C4, as stated, fails: eight 0 pulses followed by a 1 pulse form a valid
    odd-parity frame, and the value delivered is 256, the ninth (parity) bit
    itself. *)
Lemma hexbug_parity_bit_excluded_counterexample :
  ~ (forall (ps : list TimePair) (v : Z),
        length ps = 9%nat -> Forall Hexbug.non_start ps ->
        run Hexbug.HandleTimePair Hexbug.NewStateMachine ps
          = Some (Hexbug.NewStateMachine, [v]) ->
        Z.testbit v 8 = false).
Proof.
  intros H.
  specialize (H [(350000, 350000); (350000, 350000); (350000, 350000);
                 (350000, 350000); (350000, 350000); (350000, 350000);
                 (350000, 350000); (350000, 350000); (350000, 1000000)]
                256).
  assert (Hbit : Z.testbit 256 8 = false).
  { apply H.
    - reflexivity.
    - repeat constructor; vm_compute; discriminate.
    - vm_compute. reflexivity. }
  vm_compute in Hbit. discriminate Hbit.
Qed.

(** C4, amended: an accepted odd-parity frame delivers the whole 9-bit
    accumulator.  Bit [i] of the delivered value is the reading of the
    [i]-th pulse for every one of the nine pulses: bits 0 to 7 are the
    button mask and the channel, bit 8 is the received parity bit, and no
    higher bit is set. *)
Theorem hexbug_delivers_nine_bits (ps : list TimePair) :
  length ps = 9%nat -> Forall Hexbug.non_start ps ->
  Nat.odd (Hexbug.ones ps) = true ->
  exists v,
    run Hexbug.HandleTimePair Hexbug.NewStateMachine ps
      = Some (Hexbug.NewStateMachine, [v]) /\
    (forall (i : nat) (p : TimePair),
        ps !! i = Some p -> Z.testbit v (Z.of_nat i) = Hexbug.is_one p) /\
    (forall p, ps !! 8%nat = Some p -> Z.testbit v 8 = Hexbug.is_one p) /\
    (forall i, 9 <= i -> Z.testbit v i = false).
Proof.
  intros Hlen Hns Hodd.
  destruct (hexbug_nine_pulses ps Hlen Hns) as (v & Hrun & Hbits & Hhigh).
  rewrite Hodd in Hrun. exists v. split; [exact Hrun|].
  split; [exact Hbits|]. split; [|exact Hhigh].
  intros p Hp. exact (Hbits 8%nat p Hp).
Qed.

Lemma hexbug_delivers_nine_bits_witness :
  exists v,
    run Hexbug.HandleTimePair Hexbug.NewStateMachine
      [(350000, 1000000); (350000, 1000000); (350000, 350000);
       (350000, 350000); (350000, 350000); (350000, 350000);
       (350000, 350000); (350000, 350000); (350000, 1000000)]
    = Some (Hexbug.NewStateMachine, [v]) /\
    Z.testbit v 8 = true.
Proof.
  destruct (hexbug_delivers_nine_bits
              [(350000, 1000000); (350000, 1000000); (350000, 350000);
               (350000, 350000); (350000, 350000); (350000, 350000);
               (350000, 350000); (350000, 350000); (350000, 1000000)])
    as (v & Hrun & _ & Hpar & _).
  - reflexivity.
  - repeat constructor; vm_compute; discriminate.
  - reflexivity.
  - exists v. split; [exact Hrun|].
    apply (Hpar (350000, 1000000)). reflexivity.
Defined.

(** ** The addressed 32-bit code *)

(** C2: for every 32-bit raw value, unmarshalling through a nil frame
    pointer returns [ErrFrameAlloc] and there is no frame written;
    unmarshalling into an allocated frame returns the nil error and leaves
    the low 16 bits in [Addr] and the high 16 bits in [Cmd], whatever the
    frame held before. *)
Theorem samsung_unmarshal_frame (v : Z) (f : Samsung.Frame) :
  0 <= v < 2 ^ 32 ->
  Samsung.UnmarshalFrame None v = (None, Some Samsung.ErrFrameAlloc) /\
  Samsung.UnmarshalFrame (Some f) v
    = (Some {| Samsung.Addr := v mod 2 ^ 16; Samsung.Cmd := v / 2 ^ 16 |},
       None).
Proof.
  intros Hv. split; [reflexivity|].
  unfold Samsung.UnmarshalFrame, wrap_uint16.
  change 65535 with (Z.ones 16).
  rewrite !Z.land_ones, Z.shiftr_div_pow2 by lia.
  rewrite !Z.mod_mod by lia.
  assert (0 <= v / 2 ^ 16 < 2 ^ 16).
  { split; [apply Z.div_pos; lia|]. apply Z.div_lt_upper_bound; lia. }
  rewrite (Z.mod_small (v / 2 ^ 16)) by lia. reflexivity.
Qed.

Lemma samsung_unmarshal_frame_witness :
  Samsung.UnmarshalFrame None 1450709556 = (None, Some Samsung.ErrFrameAlloc) /\
  Samsung.UnmarshalFrame (Some {| Samsung.Addr := 7; Samsung.Cmd := 9 |})
                         1450709556
    = (Some {| Samsung.Addr := 4660; Samsung.Cmd := 22136 |}, None).
Proof.
  apply (samsung_unmarshal_frame 1450709556
           {| Samsung.Addr := 7; Samsung.Cmd := 9 |}).
  lia.
Defined.

(** C8, as stated, fails: a pulse with a deassert-duration of 201 ms and an
    assert-duration of 4 ms is taken as a start of frame and clears the
    accumulator and the bit counter. *)
Lemma samsung_long_deassert_ignored_counterexample :
  ~ (forall (sm : Samsung.StateMachine) (pair : TimePair),
        snd pair > 200 * Millisecond ->
        Samsung.HandleTimePair sm pair = Some (sm, [])).
Proof.
  intros H.
  specialize (H {| Samsung.buf := 5; Samsung.bitcount := 3 |}
                (4 * Millisecond, 201 * Millisecond)).
  assert (Hgt : snd (4 * Millisecond, 201 * Millisecond) > 200 * Millisecond)
    by reflexivity.
  specialize (H Hgt). vm_compute in H. discriminate H.
Qed.

(** C8, amended: the band is tested on the first duration of the pair.
    Every pulse whose assert-duration exceeds 200 ms is ignored entirely:
    accumulator and bit counter are unchanged and nothing is delivered. *)
Theorem samsung_long_assert_ignored
  (sm : Samsung.StateMachine) (pair : TimePair) :
  fst pair > 200 * Millisecond ->
  Samsung.HandleTimePair sm pair = Some (sm, []).
Proof.
  intros Hon. destruct pair as [on off]. cbn [fst] in Hon.
  unfold Samsung.HandleTimePair.
  destruct (Z.gtb_spec on (200 * Millisecond)); [reflexivity | lia].
Qed.

Lemma samsung_long_assert_ignored_witness :
  Samsung.HandleTimePair {| Samsung.buf := 5; Samsung.bitcount := 3 |}
                         (201 * Millisecond, 4 * Millisecond)
  = Some ({| Samsung.buf := 5; Samsung.bitcount := 3 |}, []).
Proof.
  apply (samsung_long_assert_ignored
           {| Samsung.buf := 5; Samsung.bitcount := 3 |}
           (201 * Millisecond, 4 * Millisecond)).
  reflexivity.
Defined.

(** C1: what the code does on the marshalled frame (address 0x1234, command
    0x5678).  [MarshalFrame] yields 34 pairs; fed in order to a fresh
    decoder they cause exactly one callback, but its frame is (address 1,
    command 0): the start pair's deassert-duration is exactly 3 ms, which is
    not above the start threshold, so the pair is read as a 1 bit, and the
    bit pairs all carry the same assert-duration, which reads as 0. *)
Theorem samsung_marshal_then_decode :
  let f := {| Samsung.Addr := 4660; Samsung.Cmd := 22136 |} in
  length (Samsung.MarshalFrame f) = 34%nat /\
  run Samsung.HandleTimePair Samsung.NewStateMachine (Samsung.MarshalFrame f)
    = Some ({| Samsung.buf := 1; Samsung.bitcount := 34 |},
            [{| Samsung.Addr := 1; Samsung.Cmd := 0 |}]).
Proof.
  split; vm_compute; reflexivity.
Qed.

(** C7: the boundary pulses, evaluated.  In the parity-checked and the
    addressed decoders a duration equal to the bit threshold is counted as
    a 0 bit.  In the generic fixed-length decoder a deassert-duration of
    exactly 1 ms matches neither case of the switch: no bit is appended and
    the bit counter stays where it was. *)
Theorem threshold_pulse_handling :
  Hexbug.HandleTimePair Hexbug.NewStateMachine
      (350 * Microsecond, 750 * Microsecond)
    = Some ({| Hexbug.rcvbuf := 0; Hexbug.bitcount := 1;
               Hexbug.parity := false |}, []) /\
  Samsung.HandleTimePair Samsung.NewStateMachine
      (Millisecond, 562 * Microsecond)
    = Some ({| Samsung.buf := 0; Samsung.bitcount := 1 |}, []) /\
  Cheapo.HandleTimePair Cheapo.NewStateMachine
      (562 * Microsecond, Millisecond)
    = Some ({| Cheapo.buf := 0; Cheapo.bitcount := 0 |}, []).
Proof.
  repeat split.
Qed.

(** ** The proportional multi-channel decoder *)

Lemma ppm_index_in_range (a : list Duration) (ch : Z) :
  0 <= ch < Z.of_nat (length a) ->
  exists d, PPM.index a ch = Some d /\ a !! Z.to_nat ch = Some d.
Proof.
  intros Hch. unfold PPM.index.
  destruct (Z.ltb_spec ch 0); [lia|].
  destruct (lookup_lt_is_Some_2 a (Z.to_nat ch)) as [d Hd]; [lia|].
  exists d. now rewrite Hd.
Qed.

(** C5: reading at instant [now], for every channel index in range.  If the
    time since the last synchronisation marker exceeds [Timeout], [Channel]
    returns the safe value of that channel and [Channels] the whole safe
    array; otherwise [Channel] returns the decoded value stored for the
    channel and [Channels] the whole array of decoded values. *)
Theorem ppm_staleness_fallback
  (sm : PPM.StateMachine) (now : Time) (ch : Z) :
  PPM.well_formed sm -> 0 <= ch < 16 ->
  (time_Since now (PPM.last sm) > PPM.Timeout sm ->
   (exists d, PPM.Channel sm now ch = Some d /\
              PPM.safeChannels sm !! Z.to_nat ch = Some d) /\
   PPM.Channels sm now = PPM.safeChannels sm) /\
  (time_Since now (PPM.last sm) <= PPM.Timeout sm ->
   (exists d, PPM.Channel sm now ch = Some d /\
              PPM.channels sm !! Z.to_nat ch = Some d) /\
   PPM.Channels sm now = PPM.channels sm).
Proof.
  intros [Hc Hs] Hch. unfold PPM.Channel, PPM.Channels, PPM.IsSafe.
  split; intros Ht.
  - destruct (Z.gtb_spec (time_Since now (PPM.last sm)) (PPM.Timeout sm)); [|lia].
    split; [|reflexivity]. apply ppm_index_in_range. rewrite Hs. lia.
  - destruct (Z.gtb_spec (time_Since now (PPM.last sm)) (PPM.Timeout sm)); [lia|].
    split; [|reflexivity]. apply ppm_index_in_range. rewrite Hc. lia.
Qed.

Lemma ppm_staleness_fallback_witness :
  PPM.Channel
    {| PPM.channels := replicate 16 1200000;
       PPM.safeChannels := PPM.SafeChannelsMid;
       PPM.Timeout := 600000000; PPM.currentCh := 16;
       PPM.last := 5000000000 |} 5700000000 3 = Some 1500000 /\
  PPM.Channel
    {| PPM.channels := replicate 16 1200000;
       PPM.safeChannels := PPM.SafeChannelsMid;
       PPM.Timeout := 600000000; PPM.currentCh := 16;
       PPM.last := 5000000000 |} 5600000000 3 = Some 1200000.
Proof.
  split.
  - destruct (ppm_staleness_fallback
                {| PPM.channels := replicate 16 1200000;
                   PPM.safeChannels := PPM.SafeChannelsMid;
                   PPM.Timeout := 600000000; PPM.currentCh := 16;
                   PPM.last := 5000000000 |} 5700000000 3)
      as [[(d & Hd & Hs) _] _].
    + split; reflexivity.
    + lia.
    + reflexivity.
    + rewrite Hd. vm_compute in Hs. exact (eq_sym Hs).
  - destruct (ppm_staleness_fallback
                {| PPM.channels := replicate 16 1200000;
                   PPM.safeChannels := PPM.SafeChannelsMid;
                   PPM.Timeout := 600000000; PPM.currentCh := 16;
                   PPM.last := 5000000000 |} 5600000000 3)
      as [_ [(d & Hd & Hs) _]].
    + split; reflexivity.
    + lia.
    + vm_compute; discriminate.
    + rewrite Hd. vm_compute in Hs. exact (eq_sym Hs).
Defined.

(** The handler never indexes outside the channel array: from a state with
    the index between 0 and the capacity it returns normally, and the index
    stays in that range. *)
Lemma ppm_handle_invariant
  (sm : PPM.StateMachine) (now : Time) (p : TimePair) :
  length (PPM.channels sm) = 16%nat -> 0 <= PPM.currentCh sm <= 16 ->
  exists sm',
    PPM.HandleTimePair sm now p = Some sm' /\
    length (PPM.channels sm') = 16%nat /\
    0 <= PPM.currentCh sm' <= 16 /\
    (fst p <= PPM.minimumTimeBetweenFrames -> PPM.currentCh sm = 16 ->
     sm' = sm).
Proof.
  intros Hlen Hch. destruct p as [on off]. unfold PPM.HandleTimePair. cbn [fst].
  destruct (Z.gtb_spec on PPM.minimumTimeBetweenFrames).
  { eexists; split; [reflexivity|]. cbn. repeat split; try lia. }
  destruct (Time_IsZero (PPM.last sm)).
  { exists sm. repeat split; auto; lia. }
  rewrite Hlen.
  destruct (Z.geb_spec (PPM.currentCh sm) (Z.of_nat 16)).
  { exists sm. repeat split; auto; lia. }
  unfold PPM.store. rewrite Hlen.
  destruct (Z.ltb_spec (PPM.currentCh sm) 0); [lia|].
  destruct (Z.leb_spec (Z.of_nat 16) (PPM.currentCh sm)); [lia|].
  cbn [orb]. eexists; split; [reflexivity|].
  cbn [PPM.channels PPM.currentCh].
  rewrite length_insert, wrap_int_small by lia.
  repeat split; try lia.
Qed.

Lemma ppm_feed_invariant (evs : list (Time * TimePair)) :
  forall sm : PPM.StateMachine,
    length (PPM.channels sm) = 16%nat -> 0 <= PPM.currentCh sm <= 16 ->
    exists sm',
      PPM.feed sm evs = Some sm' /\
      length (PPM.channels sm') = 16%nat /\ 0 <= PPM.currentCh sm' <= 16.
Proof.
  induction evs as [|[now p] evs IH]; intros sm Hlen Hch.
  - exists sm. auto.
  - destruct (ppm_handle_invariant sm now p Hlen Hch)
      as (sm1 & H1 & Hlen1 & Hch1 & _).
    destruct (IH sm1 Hlen1 Hch1) as (sm2 & H2 & Hlen2 & Hch2).
    exists sm2. cbn [PPM.feed]. rewrite H1. auto.
Qed.

(** ** Bounds on what the decoders accumulate *)

(** [1 << n] at 32 bits is zero once [n] reaches 32. *)
Lemma one_shl32_high (n : Z) : 32 <= n -> wrap_uint32 (Z.shiftl 1 n) = 0.
Proof.
  intros Hn. unfold wrap_uint32. rewrite Z.shiftl_1_l.
  replace n with ((n - 32) + 32) by lia.
  rewrite Z.pow_add_r by lia. apply Z.mod_mul. lia.
Qed.

(** The parity-checked decoder keeps its counter below 9 and its buffer
    within the bits counted so far, whatever it is fed. *)
Lemma hexbug_handle_invariant (hb : Hexbug.StateMachine) (p : TimePair) :
  0 <= Hexbug.bitcount hb < 9 ->
  0 <= Hexbug.rcvbuf hb < 2 ^ Hexbug.bitcount hb ->
  exists hb' calls,
    Hexbug.HandleTimePair hb p = Some (hb', calls) /\
    0 <= Hexbug.bitcount hb' < 9 /\
    0 <= Hexbug.rcvbuf hb' < 2 ^ Hexbug.bitcount hb'.
Proof.
  intros Hk Hb.
  destruct (Z.le_gt_cases (snd p) (1600 * Microsecond)) as [Hns|Hst].
  - rewrite hexbug_handle_bit by (auto; lia).
    destruct (Z.eqb_spec (Hexbug.bitcount hb) 8).
    + eexists _, _. split; [reflexivity|]. cbn. lia.
    + eexists _, _. split; [reflexivity|].
      cbn [hexbug_sample Hexbug.bitcount Hexbug.rcvbuf].
      split; [lia|].
      assert (Hpow : 2 ^ (Hexbug.bitcount hb + 1) = 2 * 2 ^ Hexbug.bitcount hb)
        by (rewrite Z.pow_add_r by lia; lia).
      assert (0 < 2 ^ Hexbug.bitcount hb) by (apply Z.pow_pos_nonneg; lia).
      destruct (Hexbug.is_one p); [|lia].
      apply lor_pow2_range; lia.
  - destruct p as [on off]. cbn [snd] in Hst. unfold Hexbug.HandleTimePair.
    destruct (Z.gtb_spec off (1600 * Microsecond)); [|lia].
    eexists _, _. split; [reflexivity|]. cbn. lia.
Qed.

Lemma hexbug_run_invariant (ps : list TimePair) :
  forall hb : Hexbug.StateMachine,
    0 <= Hexbug.bitcount hb < 9 ->
    0 <= Hexbug.rcvbuf hb < 2 ^ Hexbug.bitcount hb ->
    exists hb' calls,
      run Hexbug.HandleTimePair hb ps = Some (hb', calls) /\
      0 <= Hexbug.bitcount hb' < 9 /\
      0 <= Hexbug.rcvbuf hb' < 2 ^ Hexbug.bitcount hb'.
Proof.
  induction ps as [|p ps IH]; intros hb Hk Hb.
  - exists hb, []. auto.
  - destruct (hexbug_handle_invariant hb p Hk Hb) as (hb1 & c1 & H1 & Hk1 & Hb1).
    destruct (IH hb1 Hk1 Hb1) as (hb2 & c2 & H2 & Hk2 & Hb2).
    exists hb2, (c1 ++ c2). cbn [run]. rewrite H1, H2. auto.
Qed.

(** The addressed decoder: the buffer never leaves 32 bits; the counter is
    bounded only by the number of pulses seen. *)
Lemma samsung_handle_invariant
  (sm : Samsung.StateMachine) (p : TimePair) (n : Z) :
  0 <= Samsung.buf sm < 2 ^ 32 -> 0 <= Samsung.bitcount sm <= n ->
  n < max_int ->
  exists sm' calls,
    Samsung.HandleTimePair sm p = Some (sm', calls) /\
    0 <= Samsung.buf sm' < 2 ^ 32 /\ 0 <= Samsung.bitcount sm' <= n + 1 /\
    (32 <= Samsung.bitcount sm ->
     calls = [] /\ (Samsung.buf sm' = Samsung.buf sm
                    \/ sm' = Samsung.NewStateMachine)).
Proof.
  intros Hb Hk Hn. unfold max_int in Hn. destruct p as [on off].
  unfold Samsung.HandleTimePair.
  destruct (on >? 200 * Millisecond).
  { exists sm, []. repeat split; auto; lia. }
  destruct (off >? 3 * Millisecond).
  { destruct (on >? 3 * Millisecond).
    - eexists _, _. split; [reflexivity|]. cbn. repeat split; auto; lia.
    - exists sm, []. repeat split; auto; lia. }
  rewrite shl_uint32_nonneg by lia.
  rewrite wrap_int_small by lia.
  set (b := if on >? Millisecond
            then Some (Z.lor (Samsung.buf sm)
                         (wrap_uint32 (Z.shiftl 1 (Samsung.bitcount sm))))
            else Some (Samsung.buf sm)).
  assert (Hbv : exists v, b = Some v /\ 0 <= v < 2 ^ 32 /\
                  (32 <= Samsung.bitcount sm -> v = Samsung.buf sm)).
  { subst b. destruct (on >? Millisecond).
    - eexists; split; [reflexivity|]. split.
      + apply lor_uint32_range; [lia | apply wrap_uint32_range].
      + intros H32. rewrite one_shl32_high by lia. apply Z.lor_0_r.
    - eexists; split; [reflexivity|]. split; [lia | auto]. }
  destruct Hbv as (v & -> & Hv & Hsame).
  cbn [Samsung.bitcount Samsung.buf Samsung.UnmarshalFrame fst].
  destruct (Z.eqb_spec (Samsung.bitcount sm + 1) 32); cbn [negb].
  - eexists _, _. split; [reflexivity|]. cbn. repeat split; try lia.
  - eexists _, _. split; [reflexivity|]. cbn. repeat split; try lia.
Qed.

Lemma samsung_run_invariant (ps : list TimePair) :
  forall (sm : Samsung.StateMachine) (n : Z),
    0 <= Samsung.buf sm < 2 ^ 32 -> 0 <= Samsung.bitcount sm <= n ->
    n + Z.of_nat (length ps) <= max_int ->
    exists sm' calls,
      run Samsung.HandleTimePair sm ps = Some (sm', calls) /\
      0 <= Samsung.buf sm' < 2 ^ 32 /\
      0 <= Samsung.bitcount sm' <= n + Z.of_nat (length ps).
Proof.
  induction ps as [|p ps IH]; intros sm n Hb Hk Hn.
  - exists sm, []. cbn. repeat split; lia.
  - cbn [length] in *. rewrite Nat2Z.inj_succ in *.
    destruct (samsung_handle_invariant sm p n Hb Hk)
      as (sm1 & c1 & H1 & Hb1 & Hk1 & _); [lia|].
    destruct (IH sm1 (n + 1) Hb1 Hk1) as (sm2 & c2 & H2 & Hb2 & Hk2); [lia|].
    exists sm2, (c1 ++ c2). cbn [run]. rewrite H1, H2.
    repeat split; lia.
Qed.

(** The generic decoder: the buffer never leaves its 32 bits, and a pulse
    arriving when the counter is at 32 or more cannot add a bit. *)
Lemma cheapo_handle_invariant
  (c : Cheapo.StateMachine) (p : TimePair) (n : Z) :
  0 <= Cheapo.buf c < 2 ^ 32 -> 0 <= Cheapo.bitcount c <= n ->
  n < max_int ->
  exists c' calls,
    Cheapo.HandleTimePair c p = Some (c', calls) /\
    0 <= Cheapo.buf c' < 2 ^ 32 /\ 0 <= Cheapo.bitcount c' <= n + 1 /\
    (32 <= Cheapo.bitcount c ->
     Cheapo.buf c' = Cheapo.buf c \/ c' = Cheapo.NewStateMachine).
Proof.
  intros Hb Hk Hn. unfold max_int in Hn. destruct p as [on off].
  unfold Cheapo.HandleTimePair.
  destruct (on >? 7 * Millisecond).
  { eexists _, _. split; [reflexivity|]. cbn. repeat split; auto; lia. }
  assert (Hc : exists c',
             Cheapo.classify c off = Some c' /\
             0 <= Cheapo.buf c' < 2 ^ 32 /\
             0 <= Cheapo.bitcount c' <= n + 1 /\
             (32 <= Cheapo.bitcount c -> Cheapo.buf c' = Cheapo.buf c)).
  { unfold Cheapo.classify. destruct (off >? Millisecond).
    - rewrite shl_uint32_nonneg by lia.
      eexists; split; [reflexivity|]. cbn [Cheapo.buf Cheapo.bitcount].
      rewrite wrap_int_small by lia. split; [|split; [lia|]].
      + apply lor_uint32_range; [lia | apply wrap_uint32_range].
      + intros H32. rewrite one_shl32_high by lia. apply Z.lor_0_r.
    - destruct (off <? Millisecond).
      + eexists; split; [reflexivity|]. cbn [Cheapo.buf Cheapo.bitcount].
        rewrite wrap_int_small by lia. repeat split; lia.
      + exists c. repeat split; lia. }
  destruct Hc as (c' & -> & Hb' & Hk' & Hsame).
  destruct (Cheapo.bitcount c' <? 10);
    eexists _, _; (split; [reflexivity|]); repeat split; try lia;
    intros H32; left; auto.
Qed.

Lemma cheapo_run_invariant (ps : list TimePair) :
  forall (c : Cheapo.StateMachine) (n : Z),
    0 <= Cheapo.buf c < 2 ^ 32 -> 0 <= Cheapo.bitcount c <= n ->
    n + Z.of_nat (length ps) <= max_int ->
    exists c' calls,
      run Cheapo.HandleTimePair c ps = Some (c', calls) /\
      0 <= Cheapo.buf c' < 2 ^ 32 /\
      0 <= Cheapo.bitcount c' <= n + Z.of_nat (length ps).
Proof.
  induction ps as [|p ps IH]; intros c n Hb Hk Hn.
  - exists c, []. cbn. repeat split; lia.
  - cbn [length] in *. rewrite Nat2Z.inj_succ in *.
    destruct (cheapo_handle_invariant c p n Hb Hk)
      as (c1 & k1 & H1 & Hb1 & Hk1 & _); [lia|].
    destruct (IH c1 (n + 1) Hb1 Hk1) as (c2 & k2 & H2 & Hb2 & Hk2); [lia|].
    exists c2, (k1 ++ k2). cbn [run]. rewrite H1, H2.
    repeat split; lia.
Qed.

(** C6, as stated, fails for the generic fixed-length decoder: after a start
    marker and eleven 1 pulses the bit counter is 11 and the accumulator is
    2047, both beyond the 10-bit frame width. *)
Lemma bounded_accumulation_counterexample :
  ~ (forall (ps : list TimePair) (c : Cheapo.StateMachine) (calls : list Z),
        run Cheapo.HandleTimePair Cheapo.NewStateMachine ps = Some (c, calls) ->
        Cheapo.bitcount c <= 10 \/ Cheapo.buf c < 2 ^ 10).
Proof.
  intros H.
  destruct (H ((9000000, 4500000) :: replicate 11 (500000, 1600000))
              {| Cheapo.buf := 2047; Cheapo.bitcount := 11 |}
              [1023; 2047]) as [Hk|Hb].
  - vm_compute. reflexivity.
  - vm_compute in Hk. now apply Hk.
  - vm_compute in Hb. discriminate Hb.
Qed.

(** C6, amended.  For every pulse stream fed to a fresh decoder (short
    enough for the pulse count to fit an [int]) the handlers return normally
    and:
    - parity-checked decoder: the bit counter stays below 9 and the
      accumulator within the bits counted, so within the 9-bit frame;
    - proportional decoder: the channel index stays between 0 and 16, the
      array keeps its 16 entries, and at index 16 a channel pulse is dropped
      with the state unchanged;
    - addressed decoder: the accumulator stays within its 32 bits, the frame
      width, and a pulse arriving at a counter of 32 or more changes the
      accumulator only by a start-of-frame reset; the counter is not bounded;
    - generic fixed-length decoder: the accumulator is bounded by its 32-bit
      storage only, not by the 10-bit frame width, and a pulse arriving at a
      counter of 32 or more changes it only by a start-marker reset; the
      counter is not bounded. *)
Theorem bounded_accumulation
  (ps : list TimePair) (evs : list (Time * TimePair)) :
  Z.of_nat (length ps) <= max_int ->
  (exists hb calls,
      run Hexbug.HandleTimePair Hexbug.NewStateMachine ps = Some (hb, calls) /\
      0 <= Hexbug.bitcount hb < 9 /\
      0 <= Hexbug.rcvbuf hb < 2 ^ Hexbug.bitcount hb) /\
  (exists sm,
      PPM.feed PPM.NewStateMachine evs = Some sm /\
      length (PPM.channels sm) = 16%nat /\ 0 <= PPM.currentCh sm <= 16 /\
      forall now p, fst p <= PPM.minimumTimeBetweenFrames ->
                    PPM.currentCh sm = 16 ->
                    PPM.HandleTimePair sm now p = Some sm) /\
  (exists sm calls,
      run Samsung.HandleTimePair Samsung.NewStateMachine ps = Some (sm, calls) /\
      0 <= Samsung.buf sm < 2 ^ 32 /\
      forall p, 32 <= Samsung.bitcount sm < max_int ->
        exists sm',
          Samsung.HandleTimePair sm p = Some (sm', []) /\
          (Samsung.buf sm' = Samsung.buf sm
           \/ sm' = Samsung.NewStateMachine)) /\
  (exists c calls,
      run Cheapo.HandleTimePair Cheapo.NewStateMachine ps = Some (c, calls) /\
      0 <= Cheapo.buf c < 2 ^ 32 /\
      forall p, 32 <= Cheapo.bitcount c < max_int ->
        exists c' calls',
          Cheapo.HandleTimePair c p = Some (c', calls') /\
          (Cheapo.buf c' = Cheapo.buf c \/ c' = Cheapo.NewStateMachine)).
Proof.
  intros Hlen. split; [|split; [|split]].
  - apply hexbug_run_invariant; cbn; lia.
  - destruct (ppm_feed_invariant evs PPM.NewStateMachine)
      as (sm & Hfeed & Hl & Hch); [reflexivity | cbn; lia |].
    exists sm. repeat split; try assumption; try lia.
    intros now p Hp H16.
    destruct (ppm_handle_invariant sm now p Hl Hch) as (sm' & H' & _ & _ & Heq).
    rewrite H'. f_equal. auto.
  - destruct (samsung_run_invariant ps Samsung.NewStateMachine 0)
      as (sm & calls & Hrun & Hb & Hk); [cbn; lia | cbn; lia | lia |].
    exists sm, calls. split; [exact Hrun|]. split; [exact Hb|].
    intros p H32.
    destruct (samsung_handle_invariant sm p (Samsung.bitcount sm) Hb)
      as (sm' & calls' & H' & _ & _ & Hhigh); [lia | lia |].
    destruct Hhigh as [-> Hbuf]; [lia|].
    exists sm'. auto.
  - destruct (cheapo_run_invariant ps Cheapo.NewStateMachine 0)
      as (c & calls & Hrun & Hb & Hk); [cbn; lia | cbn; lia | lia |].
    exists c, calls. split; [exact Hrun|]. split; [exact Hb|].
    intros p H32.
    destruct (cheapo_handle_invariant c p (Cheapo.bitcount c) Hb)
      as (c' & calls' & H' & _ & _ & Hhigh); [lia | lia |].
    exists c', calls'. split; [exact H'|]. apply Hhigh. lia.
Qed.

Lemma bounded_accumulation_witness :
  exists hb calls,
    run Hexbug.HandleTimePair Hexbug.NewStateMachine
        (replicate 12 (350000, 1000000)) = Some (hb, calls) /\
    0 <= Hexbug.bitcount hb < 9.
Proof.
  destruct (bounded_accumulation
              (replicate 12 (350000, 1000000))
              [(1000, (7000000, 400000)); (2000, (1000000, 500000))])
    as [(hb & calls & Hrun & Hk & _) _].
  - vm_compute. discriminate.
  - exists hb, calls. split; [exact Hrun | exact Hk].
Defined.

(** ** What the proportional decoder stores *)

Lemma ppm_handle_channel
  (sm : PPM.StateMachine) (now : Time) (p : TimePair) :
  length (PPM.channels sm) = 16%nat -> PPM.last sm <> 0 ->
  0 <= PPM.currentCh sm < 16 -> fst p <= PPM.minimumTimeBetweenFrames ->
  PPM.HandleTimePair sm now p =
  Some {| PPM.channels :=
            <[Z.to_nat (PPM.currentCh sm) := ppm_decoded p]> (PPM.channels sm);
          PPM.safeChannels := PPM.safeChannels sm;
          PPM.Timeout := PPM.Timeout sm;
          PPM.currentCh := PPM.currentCh sm + 1;
          PPM.last := PPM.last sm |}.
Proof.
  intros Hlen Hlast Hch Hp. destruct p as [on off]. cbn [fst] in Hp.
  unfold PPM.HandleTimePair, PPM.store, ppm_decoded, Time_IsZero. cbn [fst snd].
  destruct (Z.gtb_spec on PPM.minimumTimeBetweenFrames); [lia|].
  destruct (Z.eqb_spec (PPM.last sm) 0); [contradiction|].
  rewrite Hlen.
  destruct (Z.geb_spec (PPM.currentCh sm) (Z.of_nat 16)); [lia|].
  destruct (Z.ltb_spec (PPM.currentCh sm) 0); [lia|].
  destruct (Z.leb_spec (Z.of_nat 16) (PPM.currentCh sm)); [lia|].
  cbn [orb]. rewrite (wrap_int_small (PPM.currentCh sm + 1)) by lia.
  reflexivity.
Qed.

(** Channel pulses after a marker fill the array from the current index on
    and leave the entries below it alone. *)
Lemma ppm_feed_channels (evs : list (Time * TimePair)) :
  forall sm : PPM.StateMachine,
    length (PPM.channels sm) = 16%nat -> PPM.last sm <> 0 ->
    0 <= PPM.currentCh sm ->
    PPM.currentCh sm + Z.of_nat (length evs) <= 16 ->
    Forall ppm_channel_pulse evs ->
    exists sm',
      PPM.feed sm evs = Some sm' /\
      PPM.last sm' = PPM.last sm /\
      PPM.Timeout sm' = PPM.Timeout sm /\
      PPM.safeChannels sm' = PPM.safeChannels sm /\
      (forall (i : nat) (ev : Time * TimePair),
          evs !! i = Some ev ->
          PPM.channels sm' !! (Z.to_nat (PPM.currentCh sm) + i)%nat
          = Some (ppm_decoded (snd ev))) /\
      (forall j : nat, (j < Z.to_nat (PPM.currentCh sm))%nat ->
          PPM.channels sm' !! j = PPM.channels sm !! j).
Proof.
  induction evs as [|[now p] evs IH]; intros sm Hlen Hlast Hch Hcap Hall.
  - exists sm. repeat split; auto. intros i ev Hi. now rewrite lookup_nil in Hi.
  - inversion Hall as [|? ? Hp Hrest]; subst. unfold ppm_channel_pulse in Hp.
    cbn [snd length] in *. rewrite Nat2Z.inj_succ in Hcap.
    cbn [PPM.feed].
    rewrite (ppm_handle_channel sm now p Hlen Hlast) by lia.
    set (sm1 := {| PPM.channels := _ |}).
    destruct (IH sm1) as (sm' & Hfeed & Hl & Ht & Hs & Hnew & Hold);
      subst sm1; cbn [PPM.channels PPM.last PPM.currentCh PPM.Timeout
                      PPM.safeChannels] in *;
      [now rewrite length_insert | assumption | lia | lia | assumption |].
    exists sm'. repeat split; try assumption.
    + intros [|i] ev Hi; cbn in Hi.
      * inversion Hi; subst ev. cbn [snd]. rewrite Nat.add_0_r.
        rewrite Hold by lia. apply list_lookup_insert_eq. lia.
      * specialize (Hnew i ev Hi).
        replace (Z.to_nat (PPM.currentCh sm) + S i)%nat
          with (Z.to_nat (PPM.currentCh sm + 1) + i)%nat by lia.
        exact Hnew.
    + intros j Hj. rewrite Hold by lia. apply list_lookup_insert_ne. lia.
Qed.

(** X13: a marker at instant [t0], then up to 16 channel pulses, then a read
    at instant [now]: channel [i] reads as the decoded value of the [i]-th
    pulse while the marker is no older than [Timeout], and as the safe
    value of channel [i] once it is. *)
Lemma ppm_frame_then_read
  (sm : PPM.StateMachine) (t0 now : Time) (marker : TimePair)
  (evs : list (Time * TimePair)) (i : nat) (ev : Time * TimePair) :
  PPM.well_formed sm -> t0 <> 0 ->
  fst marker > PPM.minimumTimeBetweenFrames ->
  (length evs <= 16)%nat -> Forall ppm_channel_pulse evs ->
  evs !! i = Some ev ->
  exists sm',
    PPM.feed sm ((t0, marker) :: evs) = Some sm' /\
    PPM.Channel sm' now (Z.of_nat i) =
    if time_Since now t0 >? PPM.Timeout sm
    then PPM.safeChannels sm !! i
    else Some (ppm_decoded (snd ev)).
Proof.
  intros [Hc Hs] Ht0 Hm Hlen Hall Hi.
  destruct marker as [on off]. cbn [fst] in Hm.
  cbn [PPM.feed]. unfold PPM.HandleTimePair at 1.
  destruct (Z.gtb_spec on PPM.minimumTimeBetweenFrames); [|lia].
  set (sm1 := {| PPM.channels := _ |}).
  destruct (ppm_feed_channels evs sm1) as (sm' & Hfeed & Hl & Ht & Hsafe & Hnew & _);
    subst sm1; cbn [PPM.channels PPM.last PPM.currentCh PPM.Timeout
                    PPM.safeChannels] in *; try assumption; try lia.
  exists sm'. split; [exact Hfeed|].
  unfold PPM.Channel, PPM.IsSafe, PPM.index. rewrite Hl, Ht, Hsafe.
  destruct (Z.ltb_spec (Z.of_nat i) 0); [lia|]. rewrite Nat2Z.id.
  destruct (time_Since now t0 >? PPM.Timeout sm); [reflexivity|].
  exact (Hnew i ev Hi).
Qed.

(** * Further properties of the code *)

(** ** The addressed 32-bit decoder on well-formed frames *)

Lemma samsung_frame_of_halves (v : Z) :
  0 <= v < 2 ^ 32 ->
  samsung_frame_of v
  = {| Samsung.Addr := v mod 2 ^ 16; Samsung.Cmd := v / 2 ^ 16 |}.
Proof.
  intros Hv. unfold samsung_frame_of, wrap_uint16.
  change 65535 with (Z.ones 16).
  rewrite !Z.land_ones, Z.shiftr_div_pow2 by lia.
  rewrite !Z.mod_mod by lia.
  assert (0 <= v / 2 ^ 16 < 2 ^ 16).
  { split; [apply Z.div_pos; lia|]. apply Z.div_lt_upper_bound; lia. }
  rewrite (Z.mod_small (v / 2 ^ 16)) by lia. reflexivity.
Qed.

(** The handler on a bit pulse. *)
Lemma samsung_handle_bit (sm : Samsung.StateMachine) (p : TimePair) :
  samsung_bit_pulse p -> 0 <= Samsung.bitcount sm < max_int ->
  0 <= Samsung.buf sm < 2 ^ 32 ->
  exists sm',
    Samsung.HandleTimePair sm p =
      Some (sm', if Samsung.bitcount sm' =? 32
                 then [samsung_frame_of (Samsung.buf sm')] else []) /\
    Samsung.bitcount sm' = Samsung.bitcount sm + 1 /\
    0 <= Samsung.buf sm' < 2 ^ 32 /\
    forall i, 0 <= i ->
      Z.testbit (Samsung.buf sm') i =
      Z.testbit (Samsung.buf sm) i
      || (samsung_is_one p && (i =? Samsung.bitcount sm) && (i <? 32)).
Proof.
  intros [Hon Hoff] Hk Hb. unfold max_int in Hk. destruct p as [on off].
  cbn [fst snd] in *. unfold Samsung.HandleTimePair, samsung_is_one. cbn [fst].
  destruct (Z.gtb_spec on (200 * Millisecond)); [lia|].
  destruct (Z.gtb_spec off (3 * Millisecond)); [lia|].
  rewrite shl_uint32_nonneg by lia. rewrite wrap_int_small by lia.
  destruct (on >? Millisecond).
  - exists {| Samsung.buf :=
                Z.lor (Samsung.buf sm)
                      (wrap_uint32 (Z.shiftl 1 (Samsung.bitcount sm)));
              Samsung.bitcount := Samsung.bitcount sm + 1 |}.
    cbn [Samsung.bitcount Samsung.buf Samsung.UnmarshalFrame fst].
    split; [|split; [reflexivity|split]].
    + destruct (Samsung.bitcount sm + 1 =? 32); reflexivity.
    + apply lor_uint32_range; [lia | apply wrap_uint32_range].
    + intros i Hi. rewrite Z.lor_spec, testbit_one_shl32 by lia. reflexivity.
  - exists {| Samsung.buf := Samsung.buf sm;
              Samsung.bitcount := Samsung.bitcount sm + 1 |}.
    cbn [Samsung.bitcount Samsung.buf Samsung.UnmarshalFrame fst].
    split; [|split; [reflexivity|split]].
    + destruct (Samsung.bitcount sm + 1 =? 32); reflexivity.
    + lia.
    + intros i Hi. now rewrite orb_false_r.
Qed.

(** Up to the 32nd bit: one delivery, when the counter reaches 32. *)
Lemma samsung_run_upto_32 (ps : list TimePair) :
  forall sm : Samsung.StateMachine,
    Forall samsung_bit_pulse ps ->
    0 <= Samsung.bitcount sm ->
    0 <= Samsung.buf sm < 2 ^ 32 ->
    Samsung.bitcount sm + Z.of_nat (length ps) <= 32 ->
    exists sm',
      run Samsung.HandleTimePair sm ps =
        Some (sm', if (Z.of_nat (length ps) =? 0)
                      || (Samsung.bitcount sm + Z.of_nat (length ps) <? 32)
                   then [] else [samsung_frame_of (Samsung.buf sm')]) /\
      Samsung.bitcount sm' = Samsung.bitcount sm + Z.of_nat (length ps) /\
      0 <= Samsung.buf sm' < 2 ^ 32 /\
      forall i, 0 <= i ->
        Z.testbit (Samsung.buf sm') i =
        Z.testbit (Samsung.buf sm) i
        || ((Samsung.bitcount sm <=? i)
            && samsung_bit_at ps (i - Samsung.bitcount sm)).
Proof.
  induction ps as [|p ps IH]; intros sm Hall Hk Hbuf Hlen.
  - exists sm. simpl. split; [reflexivity|]. split; [lia|]. split; [lia|].
    intros i Hi. unfold samsung_bit_at. rewrite lookup_nil.
    now rewrite andb_false_r, orb_false_r.
  - inversion Hall as [|? ? Hp Hps]; subst.
    cbn [length] in *. rewrite Nat2Z.inj_succ in *.
    destruct (samsung_handle_bit sm p Hp) as (sm1 & H1 & Hk1 & Hr1 & Hb1);
      [unfold max_int; lia | lia |].
    destruct (IH sm1 Hps) as (sm2 & Hrun & Hk2 & Hr2 & Hb2); [lia|lia|lia|].
    clear IH. exists sm2. split; [|split; [|split]].
    + cbn [run]. rewrite H1, Hrun. f_equal. f_equal.
      destruct (Z.eqb_spec (Z.succ (Z.of_nat (length ps))) 0); [lia|].
      cbn [orb].
      destruct (Z.eqb_spec (Z.of_nat (length ps)) 0) as [Hz|Hnz]; cbn [orb].
      * destruct ps; [|simpl in Hz; lia].
        simpl in Hrun. inversion Hrun; subst sm2. rewrite Hk1.
        rewrite app_nil_r.
        replace (Samsung.bitcount sm + Z.succ (Z.of_nat (length (@nil TimePair))))
          with (Samsung.bitcount sm + 1) by (simpl; lia).
        destruct (Z.eqb_spec (Samsung.bitcount sm + 1) 32);
          destruct (Z.ltb_spec (Samsung.bitcount sm + 1) 32);
          try lia; reflexivity.
      * destruct (Z.eqb_spec (Samsung.bitcount sm1) 32); [lia|].
        cbn [app]. rewrite Hk1.
        replace (Samsung.bitcount sm + 1 + Z.of_nat (length ps))
          with (Samsung.bitcount sm + Z.succ (Z.of_nat (length ps))) by lia.
        reflexivity.
    + lia.
    + exact Hr2.
    + intros i Hi. rewrite Hb2, Hb1 by lia. rewrite Hk1.
      unfold samsung_bit_at.
      destruct (Z.eqb_spec i (Samsung.bitcount sm)) as [->|Hne].
      * rewrite Z.sub_diag. cbn [Z.to_nat lookup list_lookup].
        destruct (Z.leb_spec (Samsung.bitcount sm + 1) (Samsung.bitcount sm)); [lia|].
        destruct (Z.leb_spec (Samsung.bitcount sm) (Samsung.bitcount sm)); [|lia].
        destruct (Z.ltb_spec (Samsung.bitcount sm) 32); [|lia].
        now rewrite !andb_true_r, orb_false_r.
      * rewrite andb_false_r, andb_false_l, orb_false_r.
        destruct (Z.leb_spec (Samsung.bitcount sm + 1) i);
          destruct (Z.leb_spec (Samsung.bitcount sm) i); try lia; [|reflexivity].
        replace (Z.to_nat (i - Samsung.bitcount sm))
          with (S (Z.to_nat (i - (Samsung.bitcount sm + 1)))) by lia.
        reflexivity.
Qed.

Lemma samsung_start_resets (sm : Samsung.StateMachine) (p : TimePair) :
  samsung_start_pulse p ->
  Samsung.HandleTimePair sm p = Some (Samsung.NewStateMachine, []).
Proof.
  intros [[Hlo Hhi] Hoff]. destruct p as [on off]. cbn [fst snd] in *.
  unfold Samsung.HandleTimePair.
  destruct (Z.gtb_spec on (200 * Millisecond)); [lia|].
  destruct (Z.gtb_spec off (3 * Millisecond)); [|lia].
  destruct (Z.gtb_spec on (3 * Millisecond)); [reflexivity | lia].
Qed.

(** X1: a start-of-frame pulse followed by 32 bit pulses, from any state,
    yields exactly one callback.  The delivered frame has the low 16 bits of
    the sampled word as address and the high 16 bits as command, and bit [i]
    of the word is set exactly when the [i]-th pulse's assert-duration
    exceeds 1 ms. *)
Theorem samsung_decodes_frame
  (sm : Samsung.StateMachine) (start : TimePair) (ps : list TimePair) :
  samsung_start_pulse start ->
  length ps = 32%nat ->
  Forall samsung_bit_pulse ps ->
  exists v,
    run Samsung.HandleTimePair sm (start :: ps)
      = Some ({| Samsung.buf := v; Samsung.bitcount := 32 |},
              [{| Samsung.Addr := v mod 2 ^ 16; Samsung.Cmd := v / 2 ^ 16 |}]) /\
    0 <= v < 2 ^ 32 /\
    forall (i : nat) (p : TimePair),
      ps !! i = Some p -> Z.testbit v (Z.of_nat i) = samsung_is_one p.
Proof.
  intros Hstart Hlen Hall.
  destruct (samsung_run_upto_32 ps Samsung.NewStateMachine Hall)
    as (sm' & Hrun & Hk & Hr & Hb);
    cbn [Samsung.NewStateMachine Samsung.bitcount Samsung.buf] in *;
    [lia | lia | lia |].
  rewrite Hlen in Hrun, Hk. simpl in Hrun, Hk.
  destruct sm' as [v k]. cbn [Samsung.bitcount Samsung.buf] in *. subst k.
  exists v. split; [|split; [exact Hr|]].
  - cbn [run]. rewrite (samsung_start_resets sm start Hstart).
    cbv beta iota. rewrite Hrun.
    now rewrite samsung_frame_of_halves by exact Hr.
  - intros i p Hi. rewrite Hb by lia. rewrite Z.testbit_0_l. cbn [orb].
    unfold samsung_bit_at. rewrite Z.sub_0_r, Nat2Z.id, Hi.
    destruct (Z.leb_spec 0 (Z.of_nat i)); [reflexivity | lia].
Qed.

Lemma samsung_decodes_frame_witness :
  exists v,
    run Samsung.HandleTimePair {| Samsung.buf := 9; Samsung.bitcount := 40 |}
        ((4500000, 4500000)
           :: replicate 16 (1690000, 560000) ++ replicate 16 (560000, 560000))
      = Some ({| Samsung.buf := v; Samsung.bitcount := 32 |},
              [{| Samsung.Addr := v mod 2 ^ 16; Samsung.Cmd := v / 2 ^ 16 |}]).
Proof.
  destruct (samsung_decodes_frame
              {| Samsung.buf := 9; Samsung.bitcount := 40 |}
              (4500000, 4500000)
              (replicate 16 (1690000, 560000) ++ replicate 16 (560000, 560000)))
    as (v & Hrun & _).
  - repeat split; vm_compute; congruence.
  - reflexivity.
  - repeat constructor; vm_compute; discriminate.
  - exists v. exact Hrun.
Defined.

(** Past the 32nd bit a pulse other than a start of frame delivers nothing
    and leaves the buffer alone. *)
Lemma samsung_handle_past_32 (sm : Samsung.StateMachine) (p : TimePair) :
  32 <= Samsung.bitcount sm < max_int -> ~ samsung_start_pulse p ->
  exists sm',
    Samsung.HandleTimePair sm p = Some (sm', []) /\
    Samsung.buf sm' = Samsung.buf sm /\
    Samsung.bitcount sm <= Samsung.bitcount sm' <= Samsung.bitcount sm + 1.
Proof.
  intros Hk Hns. unfold max_int in Hk. destruct p as [on off].
  unfold samsung_start_pulse in Hns. cbn [fst snd] in Hns.
  unfold Samsung.HandleTimePair.
  destruct (Z.gtb_spec on (200 * Millisecond)).
  { exists sm. repeat split; lia. }
  destruct (Z.gtb_spec off (3 * Millisecond)).
  { destruct (Z.gtb_spec on (3 * Millisecond)); [exfalso; apply Hns; lia|].
    exists sm. repeat split; lia. }
  rewrite shl_uint32_nonneg, one_shl32_high, Z.lor_0_r by lia.
  rewrite wrap_int_small by lia.
  exists {| Samsung.buf := Samsung.buf sm;
            Samsung.bitcount := Samsung.bitcount sm + 1 |}.
  cbn [Samsung.bitcount Samsung.buf].
  destruct (Z.eqb_spec (Samsung.bitcount sm + 1) 32); [lia|].
  destruct (on >? Millisecond); cbn [negb]; repeat split; lia.
Qed.

(** X2: one delivery per frame.  Once the bit counter has reached 32 (and
    while it fits an [int]), no pulse stream without a start-of-frame pulse
    makes the decoder call back again, and the accumulator keeps its value. *)
Theorem samsung_single_delivery (ps : list TimePair) :
  forall sm : Samsung.StateMachine,
    Forall (fun p => ~ samsung_start_pulse p) ps ->
    32 <= Samsung.bitcount sm ->
    Samsung.bitcount sm + Z.of_nat (length ps) <= max_int ->
    exists sm',
      run Samsung.HandleTimePair sm ps = Some (sm', []) /\
      Samsung.buf sm' = Samsung.buf sm /\ 32 <= Samsung.bitcount sm'.
Proof.
  induction ps as [|p ps IH]; intros sm Hall Hk Hlen.
  - exists sm. repeat split; auto.
  - inversion Hall as [|? ? Hp Hps]; subst.
    cbn [length] in Hlen. rewrite Nat2Z.inj_succ in Hlen.
    destruct (samsung_handle_past_32 sm p) as (sm1 & H1 & Hb1 & Hk1);
      [lia | exact Hp |].
    destruct (IH sm1 Hps) as (sm2 & H2 & Hb2 & Hk2); [lia | lia |].
    exists sm2. cbn [run]. rewrite H1, H2. repeat split; [congruence | lia].
Qed.

Lemma samsung_single_delivery_witness :
  exists sm',
    run Samsung.HandleTimePair {| Samsung.buf := 77; Samsung.bitcount := 32 |}
        [(560000, 1690000); (1690000, 560000); (300000000, 560000);
         (560000, 40000000)]
      = Some (sm', []) /\
    Samsung.buf sm' = 77.
Proof.
  destruct (samsung_single_delivery
              [(560000, 1690000); (1690000, 560000); (300000000, 560000);
               (560000, 40000000)]
              {| Samsung.buf := 77; Samsung.bitcount := 32 |})
    as (sm' & Hrun & Hb & _).
  - repeat constructor; intros [[H1 H2] H3]; vm_compute in H1, H2, H3;
      congruence.
  - simpl. lia.
  - vm_compute. discriminate.
  - exists sm'. split; [exact Hrun | exact Hb].
Defined.

(** ** The addressed 32-bit marshaller *)

Lemma land1_eqb (x : Z) : (Z.land x 1 =? 1) = Z.testbit x 0.
Proof.
  change (Z.land x 1) with (Z.land x (Z.ones 1)).
  rewrite Z.land_ones by lia. change (2 ^ 1) with 2.
  symmetry. apply Z.bit0_eqb.
Qed.

Lemma testbit_above (n a i : Z) :
  0 <= n -> 0 <= a < 2 ^ n -> n <= i -> Z.testbit a i = false.
Proof.
  intros Hn Ha Hi. rewrite <- (Z.mod_small a (2 ^ n)) by lia.
  apply Z.mod_pow2_bits_high. lia.
Qed.

Lemma samsung_marshal_bit (b : Z) (out : list TimePair) (bit : nat) :
  Samsung.marshal_bit b out bit
  = <[S bit := if Z.testbit b (Z.of_nat bit)
               then Samsung.OnePair else Samsung.ZeroPair]> out.
Proof.
  unfold Samsung.marshal_bit. rewrite land1_eqb, Z.shiftr_spec by lia.
  rewrite Z.add_0_l. destruct (Z.testbit b (Z.of_nat bit)); reflexivity.
Qed.

(** The pairs of a marshalled frame, for every frame: the start pair, one
    pair for each of the 32 bits of [Cmd<<16 | Addr], least significant
    first, and a closing [ZeroPair]. *)
Lemma samsung_marshal_pairs (f : Samsung.Frame) :
  Samsung.MarshalFrame f
  = Samsung.StartPair
      :: map (fun i : nat => if Z.testbit (samsung_word f) (Z.of_nat i)
                             then Samsung.OnePair else Samsung.ZeroPair)
             (seq 0 32)
      ++ [Samsung.ZeroPair].
Proof.
  unfold Samsung.MarshalFrame. fold (samsung_word f).
  generalize (samsung_word f). intros w.
  cbn [seq fold_left]. rewrite !samsung_marshal_bit. reflexivity.
Qed.

(** X5: [UnmarshalFrame] inverts the word packing of [MarshalFrame]: for a
    frame whose address and command are 16-bit values, unmarshalling
    [Cmd<<16 | Addr] into any allocated frame gives the frame back. *)
Theorem samsung_unmarshal_word (f g : Samsung.Frame) :
  0 <= Samsung.Addr f < 2 ^ 16 -> 0 <= Samsung.Cmd f < 2 ^ 16 ->
  Samsung.UnmarshalFrame (Some g) (samsung_word f) = (Some f, None).
Proof.
  destruct f as [a c]. cbn [Samsung.Addr Samsung.Cmd]. intros Ha Hc.
  unfold Samsung.UnmarshalFrame, samsung_word, wrap_uint16, wrap_uint32.
  cbn [Samsung.Addr Samsung.Cmd].
  change 65535 with (Z.ones 16). rewrite !Z.land_ones, !Z.mod_mod by lia.
  set (w := Z.lor (Z.shiftl c 16 mod 2 ^ 32) a).
  assert (Hlow : w mod 2 ^ 16 = a).
  { apply Z.bits_inj'. intros n Hn.
    destruct (Z.lt_ge_cases n 16).
    - rewrite Z.mod_pow2_bits_low by lia. subst w.
      rewrite Z.lor_spec, Z.mod_pow2_bits_low, Z.shiftl_spec_low by lia.
      reflexivity.
    - rewrite Z.mod_pow2_bits_high by lia.
      symmetry. apply (testbit_above 16); lia. }
  assert (Hhigh : Z.shiftr w 16 mod 2 ^ 16 = c).
  { apply Z.bits_inj'. intros n Hn.
    destruct (Z.lt_ge_cases n 16).
    - rewrite Z.mod_pow2_bits_low, Z.shiftr_spec by lia. subst w.
      rewrite Z.lor_spec, Z.mod_pow2_bits_low, Z.shiftl_spec by lia.
      rewrite (testbit_above 16 a) by lia.
      rewrite orb_false_r. f_equal. lia.
    - rewrite Z.mod_pow2_bits_high by lia.
      symmetry. apply (testbit_above 16); lia. }
  now rewrite Hlow, Hhigh.
Qed.

Lemma samsung_unmarshal_word_witness :
  Samsung.UnmarshalFrame (Some {| Samsung.Addr := 0; Samsung.Cmd := 0 |})
      (samsung_word {| Samsung.Addr := 4660; Samsung.Cmd := 22136 |})
  = (Some {| Samsung.Addr := 4660; Samsung.Cmd := 22136 |}, None).
Proof.
  apply (samsung_unmarshal_word
           {| Samsung.Addr := 4660; Samsung.Cmd := 22136 |}
           {| Samsung.Addr := 0; Samsung.Cmd := 0 |}); simpl; lia.
Defined.

(** The decoder on a marshalled bit pair: both pairs carry an
    assert-duration of 562 microseconds, so neither sets a bit. *)
Lemma samsung_handle_marshalled_bit
  (sm : Samsung.StateMachine) (p : TimePair) :
  p = Samsung.OnePair \/ p = Samsung.ZeroPair ->
  0 <= Samsung.bitcount sm < max_int ->
  Samsung.HandleTimePair sm p
  = Some ({| Samsung.buf := Samsung.buf sm;
             Samsung.bitcount := Samsung.bitcount sm + 1 |},
          if Samsung.bitcount sm + 1 =? 32
          then [samsung_frame_of (Samsung.buf sm)] else []).
Proof.
  intros Hp Hk. unfold max_int in Hk.
  assert (Hstep :
    Samsung.HandleTimePair sm p
    = let sm' := {| Samsung.buf := Samsung.buf sm;
                    Samsung.bitcount := wrap_int (Samsung.bitcount sm + 1) |} in
      if negb (Samsung.bitcount sm' =? 32) then Some (sm', [])
      else Some (sm', [samsung_frame_of (Samsung.buf sm)])).
  { destruct Hp as [-> | ->]; reflexivity. }
  rewrite Hstep. cbv zeta. cbn [Samsung.bitcount].
  rewrite wrap_int_small by lia.
  destruct (Samsung.bitcount sm + 1 =? 32); reflexivity.
Qed.

Lemma samsung_run_marshalled_bits (ps : list TimePair) :
  forall sm : Samsung.StateMachine,
    Forall (fun p => p = Samsung.OnePair \/ p = Samsung.ZeroPair) ps ->
    0 <= Samsung.bitcount sm ->
    Samsung.bitcount sm + Z.of_nat (length ps) <= max_int ->
    run Samsung.HandleTimePair sm ps
    = Some ({| Samsung.buf := Samsung.buf sm;
               Samsung.bitcount := Samsung.bitcount sm + Z.of_nat (length ps) |},
            if (Samsung.bitcount sm <? 32)
               && (32 <=? Samsung.bitcount sm + Z.of_nat (length ps))
            then [samsung_frame_of (Samsung.buf sm)] else []).
Proof.
  induction ps as [|p ps IH]; intros sm Hall Hk Hlen.
  - cbn [run length Z.of_nat]. rewrite Z.add_0_r.
    destruct sm as [b k]. cbn [Samsung.buf Samsung.bitcount].
    destruct (Z.ltb_spec k 32), (Z.leb_spec 32 k); try lia; reflexivity.
  - inversion Hall as [|? ? Hp Hps]; subst.
    cbn [length] in *. rewrite Nat2Z.inj_succ in *.
    cbn [run]. rewrite samsung_handle_marshalled_bit by (auto; lia).
    rewrite IH by (cbn [Samsung.bitcount]; auto; lia).
    cbn [Samsung.buf Samsung.bitcount]. f_equal. f_equal; [f_equal; lia|].
    replace (Samsung.bitcount sm + 1 + Z.of_nat (length ps))
      with (Samsung.bitcount sm + Z.succ (Z.of_nat (length ps))) by lia.
    destruct (Z.eqb_spec (Samsung.bitcount sm + 1) 32),
             (Z.ltb_spec (Samsung.bitcount sm + 1) 32),
             (Z.ltb_spec (Samsung.bitcount sm) 32),
             (Z.leb_spec 32 (Samsung.bitcount sm + Z.succ (Z.of_nat (length ps))));
      try lia; reflexivity.
Qed.

(** X4: what the decoder makes of a marshalled frame, for every frame.  Fed
    the pairs of [MarshalFrame f] in order, a fresh decoder calls back
    exactly once, always with address 1 and command 0, and ends with a bit
    counter of 34: the outcome does not depend on [f]. *)
Theorem samsung_decode_of_marshalled (f : Samsung.Frame) :
  run Samsung.HandleTimePair Samsung.NewStateMachine (Samsung.MarshalFrame f)
  = Some ({| Samsung.buf := 1; Samsung.bitcount := 34 |},
          [{| Samsung.Addr := 1; Samsung.Cmd := 0 |}]).
Proof.
  rewrite samsung_marshal_pairs.
  set (bits := map _ (seq 0 32) ++ [Samsung.ZeroPair]).
  assert (Hbits : Forall (fun p => p = Samsung.OnePair \/ p = Samsung.ZeroPair)
                         bits).
  { subst bits. apply Forall_app. split.
    - apply Forall_forall. intros p Hp. apply list_elem_of_In in Hp.
      apply in_map_iff in Hp. destruct Hp as (i & <- & _).
      destruct (Z.testbit _ _); auto.
    - constructor; [right; reflexivity | constructor]. }
  assert (Hlen : length bits = 33%nat).
  { subst bits. rewrite length_app, length_map, length_seq. reflexivity. }
  cbn [run].
  change (Samsung.HandleTimePair Samsung.NewStateMachine Samsung.StartPair)
    with (Some ({| Samsung.buf := 1; Samsung.bitcount := 1 |},
                @nil Samsung.Frame)).
  cbv beta iota.
  rewrite (samsung_run_marshalled_bits bits _ Hbits);
    cbn [Samsung.buf Samsung.bitcount]; rewrite ?Hlen;
    [reflexivity | lia | vm_compute; discriminate].
Qed.

(** ** The parity-checked marshaller *)

(** One turn of the marshalling loop, on the command shifted [j] times. *)
Lemma hexbug_marshal_step
  (c j : Z) (out : list TimePair) (par : bool) (i : nat) :
  0 <= j ->
  Hexbug.marshal_step (out, Z.shiftr c j, par) i
  = (<[i := if Z.testbit c j then Hexbug.hbOne else Hexbug.hbZero]> out,
     Z.shiftr c (j + 1), xorb par (Z.testbit c j)).
Proof.
  intros Hj. unfold Hexbug.marshal_step.
  rewrite land1_eqb, Z.shiftr_spec, Z.add_0_l, Z.shiftr_shiftr by lia.
  destruct (Z.testbit c j).
  - now rewrite xorb_true_r.
  - now rewrite xorb_false_r.
Qed.

(** The pairs of a marshalled command, for every command: the start pair,
    one pair for each of the bits 0 to 7, least significant first, and a
    parity pair, which is [hbOne] exactly when the number of set data bits
    is even. *)
Lemma hexbug_marshal_pairs (c : Z) :
  Hexbug.MarshalFrame c
  = Hexbug.hbStart
      :: map (fun i : nat => if Z.testbit c (Z.of_nat i)
                             then Hexbug.hbOne else Hexbug.hbZero)
             (seq 0 8)
      ++ [if hexbug_data_parity c then Hexbug.hbZero else Hexbug.hbOne].
Proof.
  unfold Hexbug.MarshalFrame, hexbug_data_parity. cbn [seq fold_left map].
  change (Z.of_nat 0) with 0. change (Z.of_nat 1) with 1.
  change (Z.of_nat 2) with 2. change (Z.of_nat 3) with 3.
  change (Z.of_nat 4) with 4. change (Z.of_nat 5) with 5.
  change (Z.of_nat 6) with 6. change (Z.of_nat 7) with 7.
  rewrite (hexbug_marshal_step c 0 _ true 1 (Z.le_refl 0)).
  rewrite (hexbug_marshal_step c 1) by lia.
  rewrite (hexbug_marshal_step c 2) by lia.
  rewrite (hexbug_marshal_step c 3) by lia.
  rewrite (hexbug_marshal_step c 4) by lia.
  rewrite (hexbug_marshal_step c 5) by lia.
  rewrite (hexbug_marshal_step c 6) by lia.
  rewrite (hexbug_marshal_step c 7) by lia.
  destruct (Z.testbit c 0), (Z.testbit c 1), (Z.testbit c 2), (Z.testbit c 3),
           (Z.testbit c 4), (Z.testbit c 5), (Z.testbit c 6), (Z.testbit c 7);
    reflexivity.
Qed.

Lemma mod_pow2_succ_bit (c n : Z) :
  0 <= n -> c mod 2 ^ (n + 1) = c mod 2 ^ n + 2 ^ n * Z.b2z (Z.testbit c n).
Proof.
  intros Hn. rewrite Z.testbit_spec' by lia.
  rewrite Z.pow_add_r by lia. change (2 ^ 1) with 2.
  assert (0 < 2 ^ n) by (apply Z.pow_pos_nonneg; lia).
  apply Z.rem_mul_r; lia.
Qed.

(** The low byte of a word, from its bits. *)
Lemma land_255_bits (c : Z) :
  Z.land c 255
  = Z.b2z (Z.testbit c 0) + 2 * Z.b2z (Z.testbit c 1)
    + 4 * Z.b2z (Z.testbit c 2) + 8 * Z.b2z (Z.testbit c 3)
    + 16 * Z.b2z (Z.testbit c 4) + 32 * Z.b2z (Z.testbit c 5)
    + 64 * Z.b2z (Z.testbit c 6) + 128 * Z.b2z (Z.testbit c 7).
Proof.
  change 255 with (Z.ones 8). rewrite Z.land_ones by lia.
  pose proof (mod_pow2_succ_bit c 0 ltac:(lia)) as H0.
  pose proof (mod_pow2_succ_bit c 1 ltac:(lia)) as H1.
  pose proof (mod_pow2_succ_bit c 2 ltac:(lia)) as H2.
  pose proof (mod_pow2_succ_bit c 3 ltac:(lia)) as H3.
  pose proof (mod_pow2_succ_bit c 4 ltac:(lia)) as H4.
  pose proof (mod_pow2_succ_bit c 5 ltac:(lia)) as H5.
  pose proof (mod_pow2_succ_bit c 6 ltac:(lia)) as H6.
  pose proof (mod_pow2_succ_bit c 7 ltac:(lia)) as H7.
  change (2 ^ (0 + 1)) with 2 in H0. change (2 ^ 0) with 1 in H0.
  change (2 ^ (1 + 1)) with 4 in H1. change (2 ^ 1) with 2 in H1.
  change (2 ^ (2 + 1)) with 8 in H2. change (2 ^ 2) with 4 in H2.
  change (2 ^ (3 + 1)) with 16 in H3. change (2 ^ 3) with 8 in H3.
  change (2 ^ (4 + 1)) with 32 in H4. change (2 ^ 4) with 16 in H4.
  change (2 ^ (5 + 1)) with 64 in H5. change (2 ^ 5) with 32 in H5.
  change (2 ^ (6 + 1)) with 128 in H6. change (2 ^ 6) with 64 in H6.
  change (2 ^ (7 + 1)) with 256 in H7. change (2 ^ 7) with 128 in H7.
  change (2 ^ 8) with 256. rewrite Z.mod_1_r in H0. lia.
Qed.

(** X7: the decoder reads a marshalled command back from the first
    durations of its pairs.  If the deassert-durations of ten pulses are, in
    order, the first durations of the pairs of [MarshalFrame c], then from
    any state the decoder calls back exactly once and ends in the reset
    state; the delivered word is the low byte of [c] with the parity bit as
    bit 8, set exactly when the low byte has an even number of ones. *)
Theorem hexbug_decodes_marshalled
  (st : Hexbug.StateMachine) (c : Z) (qs : list TimePair) :
  map snd qs = map fst (Hexbug.MarshalFrame c) ->
  run Hexbug.HandleTimePair st qs
  = Some (Hexbug.NewStateMachine,
          [Z.land c 255 + (if hexbug_data_parity c then 0 else 256)]).
Proof.
  rewrite hexbug_marshal_pairs, land_255_bits. unfold hexbug_data_parity.
  cbn [seq map app fold_right].
  change (Z.of_nat 0) with 0. change (Z.of_nat 1) with 1.
  change (Z.of_nat 2) with 2. change (Z.of_nat 3) with 3.
  change (Z.of_nat 4) with 4. change (Z.of_nat 5) with 5.
  change (Z.of_nat 6) with 6. change (Z.of_nat 7) with 7.
  generalize (Z.testbit c 0), (Z.testbit c 1), (Z.testbit c 2),
             (Z.testbit c 3), (Z.testbit c 4), (Z.testbit c 5),
             (Z.testbit c 6), (Z.testbit c 7).
  intros b0 b1 b2 b3 b4 b5 b6 b7 Hqs.
  destruct qs as [|[n0 f0] [|[n1 f1] [|[n2 f2] [|[n3 f3] [|[n4 f4]
    [|[n5 f5] [|[n6 f6] [|[n7 f7] [|[n8 f8] [|[n9 f9] [|? ?]]]]]]]]]]];
    try discriminate Hqs.
  cbn [map snd] in Hqs.
  injection Hqs as -> -> -> -> -> -> -> -> -> ->.
  destruct b0, b1, b2, b3, b4, b5, b6, b7; reflexivity.
Qed.

Lemma hexbug_decodes_marshalled_witness :
  run Hexbug.HandleTimePair
      {| Hexbug.rcvbuf := 3; Hexbug.bitcount := 2; Hexbug.parity := false |}
      [(0, 1750000); (350000, 1000000); (350000, 350000); (350000, 1000000);
       (350000, 350000); (350000, 350000); (350000, 350000);
       (350000, 1000000); (350000, 350000); (350000, 350000)]
  = Some (Hexbug.NewStateMachine, [69]).
Proof.
  apply (hexbug_decodes_marshalled
           {| Hexbug.rcvbuf := 3; Hexbug.bitcount := 2;
              Hexbug.parity := false |} 69).
  reflexivity.
Defined.

(** X8: fed to the decoder as they are, the pairs of a marshalled command
    never cause a callback, whatever the command: every pair, the start pair
    included, has a deassert-duration of 350 microseconds and reads as a 0
    bit.  A fresh decoder ends with a bit counter of 1. *)
Theorem hexbug_marshalled_pairs_unread (c : Z) :
  run Hexbug.HandleTimePair Hexbug.NewStateMachine (Hexbug.MarshalFrame c)
  = Some ({| Hexbug.rcvbuf := 0; Hexbug.bitcount := 1;
             Hexbug.parity := false |}, []).
Proof.
  rewrite hexbug_marshal_pairs. cbn [seq map app].
  destruct (Z.testbit c (Z.of_nat 0)), (Z.testbit c (Z.of_nat 1)),
           (Z.testbit c (Z.of_nat 2)), (Z.testbit c (Z.of_nat 3)),
           (Z.testbit c (Z.of_nat 4)), (Z.testbit c (Z.of_nat 5)),
           (Z.testbit c (Z.of_nat 6)), (Z.testbit c (Z.of_nat 7)),
           (hexbug_data_parity c); reflexivity.
Qed.

(** ** Frames in a stream *)

Lemma run_after_reset {St Call : Type}
  (step : St -> TimePair -> option (St * list Call))
  (s s0 : St) (p : TimePair) (ps : list TimePair) :
  step s p = Some (s0, []) -> run step s (p :: ps) = run step s0 ps.
Proof.
  intros Hstep. cbn [run]. rewrite Hstep.
  destruct (run step s0 ps) as [[s' cs]|]; reflexivity.
Qed.

(** X9: a start marker makes a decoder forget its past.  For each of the
    three bit decoders, a stream that begins with a start marker is decoded
    from any state exactly as the rest of the stream is decoded by a fresh
    decoder: same final state, same callbacks. *)
Theorem start_marker_forgets
  (c : Cheapo.StateMachine) (sm : Samsung.StateMachine)
  (hb : Hexbug.StateMachine) (pc ps ph : TimePair) (rest : list TimePair) :
  fst pc > 7 * Millisecond ->
  samsung_start_pulse ps ->
  snd ph > 1600 * Microsecond ->
  run Cheapo.HandleTimePair c (pc :: rest)
    = run Cheapo.HandleTimePair Cheapo.NewStateMachine rest /\
  run Samsung.HandleTimePair sm (ps :: rest)
    = run Samsung.HandleTimePair Samsung.NewStateMachine rest /\
  run Hexbug.HandleTimePair hb (ph :: rest)
    = run Hexbug.HandleTimePair Hexbug.NewStateMachine rest.
Proof.
  intros Hc Hs Hh. split; [|split]; apply run_after_reset.
  - now apply cheapo_start_marker.
  - now apply samsung_start_resets.
  - destruct ph as [on off]. cbn [snd] in Hh. unfold Hexbug.HandleTimePair.
    destruct (Z.gtb_spec off (1600 * Microsecond)); [reflexivity | lia].
Qed.

Lemma start_marker_forgets_witness :
  run Hexbug.HandleTimePair
      {| Hexbug.rcvbuf := 5; Hexbug.bitcount := 3; Hexbug.parity := false |}
      [(350000, 1750000); (350000, 1000000)]
  = run Hexbug.HandleTimePair Hexbug.NewStateMachine [(350000, 1000000)].
Proof.
  apply (start_marker_forgets
           {| Cheapo.buf := 1; Cheapo.bitcount := 1 |}
           {| Samsung.buf := 1; Samsung.bitcount := 1 |}
           {| Hexbug.rcvbuf := 5; Hexbug.bitcount := 3;
              Hexbug.parity := false |}
           (9000000, 4500000) (4500000, 4500000) (350000, 1750000)
           [(350000, 1000000)]).
  - reflexivity.
  - repeat split; vm_compute; congruence.
  - reflexivity.
Defined.

(** X10: frames that follow each other without a start marker are decoded
    one by one.  After nine bit pulses the parity-checked decoder is fresh
    again, so a longer stream delivers what its first nine pulses deliver,
    followed by what a fresh decoder makes of the remaining pulses. *)
Theorem hexbug_back_to_back (ps1 ps2 : list TimePair) :
  length ps1 = 9%nat -> Forall Hexbug.non_start ps1 ->
  exists calls1,
    run Hexbug.HandleTimePair Hexbug.NewStateMachine ps1
      = Some (Hexbug.NewStateMachine, calls1) /\
    run Hexbug.HandleTimePair Hexbug.NewStateMachine (ps1 ++ ps2)
      = match run Hexbug.HandleTimePair Hexbug.NewStateMachine ps2 with
        | Some (hb, calls2) => Some (hb, calls1 ++ calls2)
        | None => None
        end.
Proof.
  intros Hlen Hns.
  destruct (hexbug_nine_pulses ps1 Hlen Hns) as (v & Hrun & _).
  eexists. split; [exact Hrun|]. now rewrite run_app, Hrun.
Qed.

Lemma hexbug_back_to_back_witness :
  exists calls1,
    run Hexbug.HandleTimePair Hexbug.NewStateMachine
        (@replicate TimePair 9 (350000, 1000000))
      = Some (Hexbug.NewStateMachine, calls1) /\
    run Hexbug.HandleTimePair Hexbug.NewStateMachine
        (@replicate TimePair 9 (350000, 1000000)
           ++ @replicate TimePair 9 (350000, 350000))
      = match run Hexbug.HandleTimePair Hexbug.NewStateMachine
                  (@replicate TimePair 9 (350000, 350000)) with
        | Some (hb, calls2) => Some (hb, calls1 ++ calls2)
        | None => None
        end.
Proof.
  apply (hexbug_back_to_back (@replicate TimePair 9 (350000, 1000000))
                             (@replicate TimePair 9 (350000, 350000))).
  - reflexivity.
  - apply Forall_forall. intros p Hp.
    apply elem_of_replicate in Hp as [-> _]. vm_compute. discriminate.
Defined.

(** ** What the parity-checked decoder delivers *)

Lemma hexbug_handle_delivers_9_bits (hb : Hexbug.StateMachine) (p : TimePair) :
  0 <= Hexbug.bitcount hb < 9 ->
  0 <= Hexbug.rcvbuf hb < 2 ^ Hexbug.bitcount hb ->
  exists hb' calls,
    Hexbug.HandleTimePair hb p = Some (hb', calls) /\
    0 <= Hexbug.bitcount hb' < 9 /\
    0 <= Hexbug.rcvbuf hb' < 2 ^ Hexbug.bitcount hb' /\
    Forall (fun v => 0 <= v < 512) calls.
Proof.
  intros Hk Hb.
  assert (Hs : 0 <= Hexbug.rcvbuf (hexbug_sample hb p)
               < 2 ^ (Hexbug.bitcount hb + 1)).
  { cbn [hexbug_sample Hexbug.rcvbuf].
    assert (Hpow : 2 ^ (Hexbug.bitcount hb + 1) = 2 * 2 ^ Hexbug.bitcount hb)
      by (rewrite Z.pow_add_r by lia; lia).
    assert (0 < 2 ^ Hexbug.bitcount hb) by (apply Z.pow_pos_nonneg; lia).
    destruct (Hexbug.is_one p); [|lia].
    apply lor_pow2_range; lia. }
  destruct (Z.le_gt_cases (snd p) (1600 * Microsecond)) as [Hns|Hst].
  - rewrite hexbug_handle_bit by (auto; lia).
    destruct (Z.eqb_spec (Hexbug.bitcount hb) 8) as [E|E].
    + eexists _, _. split; [reflexivity|]. cbn [Hexbug.NewStateMachine
        Hexbug.bitcount Hexbug.rcvbuf]. repeat split; try lia.
      rewrite E in Hs. change (2 ^ (8 + 1)) with 512 in Hs.
      destruct (Hexbug.parity _); repeat constructor; lia.
    + eexists _, _. split; [reflexivity|].
      cbn [hexbug_sample Hexbug.bitcount]. repeat split; try lia;
        try apply Hs; constructor.
  - destruct p as [on off]. cbn [snd] in Hst. unfold Hexbug.HandleTimePair.
    destruct (Z.gtb_spec off (1600 * Microsecond)); [|lia].
    eexists _, _. split; [reflexivity|]. cbn. repeat split; try lia.
    constructor.
Qed.

Lemma hexbug_run_delivers_9_bits (ps : list TimePair) :
  forall hb : Hexbug.StateMachine,
    0 <= Hexbug.bitcount hb < 9 ->
    0 <= Hexbug.rcvbuf hb < 2 ^ Hexbug.bitcount hb ->
    exists hb' calls,
      run Hexbug.HandleTimePair hb ps = Some (hb', calls) /\
      Forall (fun v => 0 <= v < 512) calls.
Proof.
  induction ps as [|p ps IH]; intros hb Hk Hb.
  - exists hb, []. split; [reflexivity | constructor].
  - destruct (hexbug_handle_delivers_9_bits hb p Hk Hb)
      as (hb1 & c1 & H1 & Hk1 & Hb1 & Hc1).
    destruct (IH hb1 Hk1 Hb1) as (hb2 & c2 & H2 & Hc2).
    exists hb2, (c1 ++ c2). cbn [run]. rewrite H1, H2.
    split; [reflexivity | now apply Forall_app].
Qed.

(** The masks split a 9-bit word into button field, channel field and
    parity bit, and the channel field is one of the four channel ids. *)
Lemma hexbug_word_fields (v : Z) :
  0 <= v < 512 ->
  Z.land v Hexbug.CmdButtonMask + Z.land v Hexbug.CmdChannelMask
    + Z.land v 256 = v /\
  (Z.land v Hexbug.CmdChannelMask = Hexbug.CH1
   \/ Z.land v Hexbug.CmdChannelMask = Hexbug.CH2
   \/ Z.land v Hexbug.CmdChannelMask = Hexbug.CH3
   \/ Z.land v Hexbug.CmdChannelMask = Hexbug.CH4).
Proof.
  intros Hv.
  assert (H : forallb
                (fun n : nat =>
                   let x := Z.of_nat n in
                   (Z.land x 63 + Z.land x 192 + Z.land x 256 =? x)
                   && ((Z.land x 192 =? 0) || (Z.land x 192 =? 64)
                       || (Z.land x 192 =? 192) || (Z.land x 192 =? 128)))
                (seq 0 512) = true) by (vm_compute; reflexivity).
  rewrite List.forallb_forall in H.
  specialize (H (Z.to_nat v)). cbv zeta in H.
  rewrite Z2Nat.id in H by lia.
  assert (Hin : In (Z.to_nat v) (seq 0 512)) by (apply in_seq; lia).
  apply H in Hin. apply andb_true_iff in Hin. destruct Hin as [Hsum Hch].
  apply Z.eqb_eq in Hsum.
  unfold Hexbug.CmdButtonMask, Hexbug.CmdChannelMask, Hexbug.CH1, Hexbug.CH2,
    Hexbug.CH3, Hexbug.CH4.
  split; [exact Hsum|].
  rewrite !orb_true_iff, !Z.eqb_eq in Hch. tauto.
Qed.

(** X11: whatever pulse stream a fresh parity-checked decoder is fed, every
    value it delivers is a 9-bit word; the button mask, the channel mask and
    the parity bit split it into three fields without overlap, and its
    channel field is one of the four channel ids [CH1] to [CH4]. *)
Theorem hexbug_delivered_word
  (ps : list TimePair) (hb : Hexbug.StateMachine) (calls : list Z) (v : Z) :
  run Hexbug.HandleTimePair Hexbug.NewStateMachine ps = Some (hb, calls) ->
  In v calls ->
  0 <= v < 512 /\
  Z.land v Hexbug.CmdButtonMask + Z.land v Hexbug.CmdChannelMask
    + Z.land v 256 = v /\
  (Z.land v Hexbug.CmdChannelMask = Hexbug.CH1
   \/ Z.land v Hexbug.CmdChannelMask = Hexbug.CH2
   \/ Z.land v Hexbug.CmdChannelMask = Hexbug.CH3
   \/ Z.land v Hexbug.CmdChannelMask = Hexbug.CH4).
Proof.
  intros Hrun Hin.
  destruct (hexbug_run_delivers_9_bits ps Hexbug.NewStateMachine)
    as (hb' & calls' & Hrun' & Hall); [cbn; lia | cbn; lia |].
  rewrite Hrun in Hrun'. injection Hrun' as <- <-.
  rewrite Forall_forall in Hall.
  assert (Hv : 0 <= v < 512) by (apply Hall; now apply list_elem_of_In).
  split; [exact Hv|]. now apply hexbug_word_fields.
Qed.

Lemma hexbug_delivered_word_witness :
  Z.land 261 Hexbug.CmdChannelMask = Hexbug.CH1
  \/ Z.land 261 Hexbug.CmdChannelMask = Hexbug.CH2
  \/ Z.land 261 Hexbug.CmdChannelMask = Hexbug.CH3
  \/ Z.land 261 Hexbug.CmdChannelMask = Hexbug.CH4.
Proof.
  apply (hexbug_delivered_word
           [(350000, 1000000); (350000, 350000); (350000, 1000000);
            (350000, 350000); (350000, 350000); (350000, 350000);
            (350000, 350000); (350000, 350000); (350000, 1000000)]
           Hexbug.NewStateMachine [261] 261).
  - vm_compute. reflexivity.
  - left. reflexivity.
Defined.

Lemma ppm_frame_then_read_witness :
  exists sm',
    PPM.feed PPM.NewStateMachine
        [(1000, (7000000, 400000)); (2000, (1100000, 400000));
         (3000, (1604000, 400000))] = Some sm' /\
    PPM.Channel sm' 4000 1 = Some 2000000.
Proof.
  destruct (ppm_frame_then_read PPM.NewStateMachine 1000 4000
              (7000000, 400000)
              [(2000, (1100000, 400000)); (3000, (1604000, 400000))]
              1 (3000, (1604000, 400000)))
    as (sm' & Hfeed & Hch).
  - split; reflexivity.
  - lia.
  - reflexivity.
  - simpl. lia.
  - repeat constructor; vm_compute; discriminate.
  - reflexivity.
  - exists sm'. split; [exact Hfeed | exact Hch].
Defined.

(** ** The proportional decoder at the edges of a frame *)

Lemma ppm_handle_before_marker
  (sm : PPM.StateMachine) (now : Time) (p : TimePair) :
  PPM.last sm = 0 -> fst p <= PPM.minimumTimeBetweenFrames ->
  PPM.HandleTimePair sm now p = Some sm.
Proof.
  intros Hlast Hp. destruct p as [on off]. cbn [fst] in Hp.
  unfold PPM.HandleTimePair, Time_IsZero.
  destruct (Z.gtb_spec on PPM.minimumTimeBetweenFrames); [lia|].
  rewrite Hlast. reflexivity.
Qed.

(** X12: before the first synchronisation marker nothing is decoded.  A
    fresh decoder fed any stream of channel pulses is still the fresh
    decoder, and at any instant every channel in range reads 1500
    microseconds. *)
Theorem ppm_before_first_marker
  (evs : list (Time * TimePair)) (now : Time) (ch : Z) :
  Forall ppm_channel_pulse evs -> 0 <= ch < 16 ->
  PPM.feed PPM.NewStateMachine evs = Some PPM.NewStateMachine /\
  PPM.Channel PPM.NewStateMachine now ch = Some (1500 * Microsecond).
Proof.
  intros Hall Hch. split.
  - induction evs as [|[t p] evs IH]; [reflexivity|].
    inversion Hall as [|? ? Hp Hrest]; subst.
    cbn [PPM.feed]. rewrite ppm_handle_before_marker by (auto; reflexivity).
    auto.
  - unfold PPM.Channel, PPM.index.
    destruct (Z.ltb_spec ch 0); [lia|].
    assert (Hl : PPM.SafeChannelsMid !! Z.to_nat ch = Some (1500 * Microsecond)).
    { unfold PPM.SafeChannelsMid. apply lookup_replicate_2. lia. }
    destruct (PPM.IsSafe PPM.NewStateMachine now); exact Hl.
Qed.

Lemma ppm_before_first_marker_witness :
  PPM.feed PPM.NewStateMachine
      [(1000, (1100000, 400000)); (2000, (1604000, 400000))]
  = Some PPM.NewStateMachine.
Proof.
  apply (ppm_before_first_marker
           [(1000, (1100000, 400000)); (2000, (1604000, 400000))] 5000 3).
  - repeat constructor; vm_compute; discriminate.
  - lia.
Defined.

Lemma ppm_feed_index (evs : list (Time * TimePair)) :
  forall sm : PPM.StateMachine,
    length (PPM.channels sm) = 16%nat -> PPM.last sm <> 0 ->
    0 <= PPM.currentCh sm ->
    PPM.currentCh sm + Z.of_nat (length evs) <= 16 ->
    Forall ppm_channel_pulse evs ->
    exists sm',
      PPM.feed sm evs = Some sm' /\
      length (PPM.channels sm') = 16%nat /\
      PPM.currentCh sm' = PPM.currentCh sm + Z.of_nat (length evs).
Proof.
  induction evs as [|[now p] evs IH]; intros sm Hlen Hlast Hch Hcap Hall.
  - exists sm. cbn. repeat split; auto; lia.
  - inversion Hall as [|? ? Hp Hrest]; subst. unfold ppm_channel_pulse in Hp.
    cbn [snd length] in *. rewrite Nat2Z.inj_succ in Hcap.
    cbn [PPM.feed].
    rewrite (ppm_handle_channel sm now p Hlen Hlast) by lia.
    set (sm1 := {| PPM.channels := _ |}).
    destruct (IH sm1) as (sm' & Hfeed & Hl & Hk);
      subst sm1; cbn [PPM.channels PPM.last PPM.currentCh] in *;
      [now rewrite length_insert | assumption | lia | lia | assumption |].
    exists sm'. repeat split; auto; lia.
Qed.

Lemma ppm_feed_full (evs : list (Time * TimePair)) :
  forall sm : PPM.StateMachine,
    PPM.currentCh sm = Z.of_nat (length (PPM.channels sm)) ->
    Forall ppm_channel_pulse evs ->
    PPM.feed sm evs = Some sm.
Proof.
  induction evs as [|[now p] evs IH]; intros sm Hfull Hall; [reflexivity|].
  inversion Hall as [|? ? Hp Hrest]; subst. unfold ppm_channel_pulse in Hp.
  cbn [snd] in Hp. cbn [PPM.feed].
  assert (Hstep : PPM.HandleTimePair sm now p = Some sm).
  { destruct p as [on off]. cbn [fst] in Hp. unfold PPM.HandleTimePair.
    destruct (Z.gtb_spec on PPM.minimumTimeBetweenFrames); [lia|].
    destruct (Time_IsZero (PPM.last sm)); [reflexivity|].
    destruct (Z.geb_spec (PPM.currentCh sm)
                         (Z.of_nat (length (PPM.channels sm))));
      [reflexivity | lia]. }
  rewrite Hstep. auto.
Qed.

(** X14: channel pulses beyond the sixteenth are dropped.  After a marker
    and sixteen channel pulses, any further channel pulses leave the decoder
    exactly as it was after the sixteenth. *)
Theorem ppm_extra_pulses_dropped
  (sm : PPM.StateMachine) (t0 : Time) (marker : TimePair)
  (evs extra : list (Time * TimePair)) :
  length (PPM.channels sm) = 16%nat -> t0 <> 0 ->
  fst marker > PPM.minimumTimeBetweenFrames ->
  length evs = 16%nat ->
  Forall ppm_channel_pulse evs -> Forall ppm_channel_pulse extra ->
  exists sm',
    PPM.feed sm ((t0, marker) :: evs) = Some sm' /\
    PPM.currentCh sm' = 16 /\
    PPM.feed sm ((t0, marker) :: evs ++ extra) = Some sm'.
Proof.
  intros Hlen Ht0 Hm Hn Hevs Hextra.
  destruct marker as [on off]. cbn [fst] in Hm.
  assert (Hfeed_app : forall s a b,
             PPM.feed s (a ++ b)
             = match PPM.feed s a with
               | Some s' => PPM.feed s' b
               | None => None
               end).
  { intros s a. revert s. induction a as [|[t q] a IHa]; intros s b;
      [reflexivity|].
    cbn [app PPM.feed]. destruct (PPM.HandleTimePair s t q); auto. }
  cbn [PPM.feed]. unfold PPM.HandleTimePair at 1 2.
  destruct (Z.gtb_spec on PPM.minimumTimeBetweenFrames); [|lia].
  set (sm1 := {| PPM.channels := _ |}).
  destruct (ppm_feed_index evs sm1) as (sm' & Hfeed & Hl & Hk);
    subst sm1; cbn [PPM.channels PPM.last PPM.currentCh] in *;
    try assumption; try lia.
  exists sm'. split; [exact Hfeed|]. split; [lia|].
  rewrite Hfeed_app, Hfeed. apply ppm_feed_full; [|exact Hextra].
  rewrite Hl. lia.
Qed.

Lemma ppm_extra_pulses_dropped_witness :
  exists sm',
    PPM.feed PPM.NewStateMachine
      ((1000, (7000000, 400000))
         :: replicate 16 (2000, (1100000, 400000))
         ++ [(3000, (1900000, 400000))]) = Some sm' /\
    PPM.currentCh sm' = 16.
Proof.
  destruct (ppm_extra_pulses_dropped PPM.NewStateMachine 1000
              (7000000, 400000)
              (replicate 16 (2000, (1100000, 400000)))
              [(3000, (1900000, 400000))])
    as (sm' & _ & Hk & Hfeed).
  - reflexivity.
  - lia.
  - reflexivity.
  - reflexivity.
  - apply Forall_forall. intros ev Hev.
    apply elem_of_replicate in Hev as [-> _]. vm_compute. discriminate.
  - repeat constructor; vm_compute; discriminate.
  - exists sm'. split; [exact Hfeed | exact Hk].
Defined.

(** X15: the value stored for a channel pulse.  For non-negative on and
    off times whose sum is below 2^62 nanoseconds, the stored duration is a
    whole multiple of 10 microseconds and lies within 5 microseconds of the
    sum of the two times, a tie being rounded up. *)
Theorem ppm_decoded_rounding (p : TimePair) :
  0 <= fst p -> 0 <= snd p -> fst p + snd p < 2 ^ 62 ->
  ppm_decoded p mod (10 * Microsecond) = 0 /\
  fst p + snd p - 5 * Microsecond < ppm_decoded p
    <= fst p + snd p + 5 * Microsecond.
Proof.
  destruct p as [on off]. cbn [fst snd]. intros Hon Hoff Hsum.
  unfold ppm_decoded. cbn [fst snd].
  rewrite wrap_int64_small by lia.
  change (10 * Microsecond) with 10000. change (5 * Microsecond) with 5000.
  set (d := on + off) in *.
  unfold Duration_Round.
  destruct (Z.leb_spec 10000 0); [lia|].
  destruct (Z.ltb_spec d 0); [lia|].
  rewrite Z.rem_mod_nonneg by lia.
  pose proof (Z.mod_pos_bound d 10000 ltac:(lia)) as Hr.
  pose proof (Z.div_mod d 10000 ltac:(lia)) as Hd.
  assert (Hq : 0 <= d / 10000) by (apply Z.div_pos; lia).
  set (r := d mod 10000) in *. set (q := d / 10000) in *.
  unfold lessThanHalf, wrap_uint64.
  rewrite (Z.mod_small r), (Z.mod_small (r + r)), (Z.mod_small 10000) by lia.
  destruct (Z.ltb_spec (r + r) 10000).
  - rewrite wrap_int64_small by lia.
    replace (d - r) with (q * 10000) by lia.
    split; [apply Z.mod_mul; lia | lia].
  - rewrite wrap_int64_small by lia.
    destruct (Z.gtb_spec (d + 10000 - r) d); [|lia].
    replace (d + 10000 - r) with ((q + 1) * 10000) by lia.
    split; [apply Z.mod_mul; lia | lia].
Qed.

Lemma ppm_decoded_rounding_witness :
  ppm_decoded (1604000, 401000) mod (10 * Microsecond) = 0 /\
  1604000 + 401000 - 5 * Microsecond < ppm_decoded (1604000, 401000)
    <= 1604000 + 401000 + 5 * Microsecond.
Proof.
  apply (ppm_decoded_rounding (1604000, 401000)); simpl; lia.
Defined.

(** X16: setting the safe channels touches nothing else.  It commutes with
    the handling of a pulse, leaves the staleness test as it was, and a read
    of all channels afterwards returns the new safe array when the signal is
    stale and the decoded values, unchanged, when it is not. *)
Theorem ppm_set_safe_channels
  (sm : PPM.StateMachine) (sc : list Duration) (now : Time) (p : TimePair) :
  PPM.HandleTimePair (PPM.SetSafeChannels sm sc) now p
    = match PPM.HandleTimePair sm now p with
      | Some sm' => Some (PPM.SetSafeChannels sm' sc)
      | None => None
      end /\
  PPM.IsSafe (PPM.SetSafeChannels sm sc) now = PPM.IsSafe sm now /\
  PPM.Channels (PPM.SetSafeChannels sm sc) now
    = if PPM.IsSafe sm now then sc else PPM.Channels sm now.
Proof.
  split; [|split].
  - destruct p as [on off].
    unfold PPM.HandleTimePair, PPM.SetSafeChannels.
    cbn [PPM.channels PPM.safeChannels PPM.Timeout PPM.currentCh PPM.last].
    destruct (on >? PPM.minimumTimeBetweenFrames); [reflexivity|].
    destruct (Time_IsZero (PPM.last sm)); [reflexivity|].
    destruct (PPM.currentCh sm >=? Z.of_nat (length (PPM.channels sm)));
      [reflexivity|].
    destruct (PPM.store _ _ _); reflexivity.
  - reflexivity.
  - unfold PPM.Channels, PPM.SetSafeChannels, PPM.IsSafe.
    cbn [PPM.channels PPM.safeChannels PPM.Timeout PPM.last].
    destruct (time_Since now (PPM.last sm) >? PPM.Timeout sm); reflexivity.
Qed.

(** ** The fan-out dispatcher *)

Section MultiFacts.
Context {St Call : Type}.
Variable handle : St -> TimePair -> option (St * list Call).

Lemma member_calls_insert_ne
  (store : list St) (pair : TimePair) (r r' : nat) (m : St) :
  r <> r' ->
  member_calls handle (<[r := m]> store) pair r'
  = member_calls handle store pair r'.
Proof.
  intros Hne. unfold member_calls.
  now rewrite list_lookup_insert_ne by exact Hne.
Qed.

(** What a successful dispatch of one pair did, for members registered
    once each. *)
Lemma multi_handle_spec (mrsm : list nat) :
  forall (store store' : list St) (pair : TimePair) (calls : list Call),
    NoDup mrsm ->
    Rx.HandleTimePair handle mrsm store pair = Some (store', calls) ->
    length store' = length store /\
    (forall r m, r ∈ mrsm -> store !! r = Some m ->
       exists m' cs, handle m pair = Some (m', cs) /\ store' !! r = Some m') /\
    (forall r, r ∉ mrsm -> store' !! r = store !! r) /\
    calls = concat (map (member_calls handle store pair) mrsm).
Proof.
  induction mrsm as [|r rest IH]; intros store store' pair calls Hnd Hrun.
  - cbn in Hrun. injection Hrun as <- <-.
    repeat split; auto. intros r m Hr. inversion Hr.
  - apply NoDup_cons in Hnd. destruct Hnd as [Hnotin Hnd].
    cbn [Rx.HandleTimePair] in Hrun.
    destruct (store !! r) as [m|] eqn:Hm; [|discriminate].
    destruct (handle m pair) as [[m' cs]|] eqn:Hh; [|discriminate].
    destruct (Rx.HandleTimePair handle rest (<[r := m']> store) pair)
      as [[st2 cs2]|] eqn:Hrest; [|discriminate].
    injection Hrun as <- <-.
    destruct (IH _ _ _ _ Hnd Hrest) as (Hlen & Hmem & Hout & Hcalls).
    rewrite length_insert in Hlen.
    assert (Hr_lt : (r < length store)%nat) by (eapply lookup_lt_Some; eauto).
    repeat split.
    + exact Hlen.
    + intros r1 m1 Hr1 Hm1. apply elem_of_cons in Hr1.
      destruct (decide (r1 = r)) as [->|Hne].
      * rewrite Hm in Hm1. injection Hm1 as <-.
        exists m', cs. split; [exact Hh|].
        rewrite (Hout r Hnotin). now apply list_lookup_insert_eq.
      * destruct Hr1 as [->|Hr1]; [contradiction|].
        apply (Hmem r1 m1 Hr1).
        now rewrite list_lookup_insert_ne by congruence.
    + intros r1 Hr1. apply not_elem_of_cons in Hr1. destruct Hr1 as [Hne Hr1].
      rewrite (Hout r1 Hr1). now rewrite list_lookup_insert_ne by congruence.
    + cbn [map concat]. f_equal.
      * unfold member_calls. now rewrite Hm, Hh.
      * rewrite Hcalls. f_equal. apply map_ext_in. intros r1 Hr1.
        apply member_calls_insert_ne. intros ->.
        apply Hnotin. now apply list_elem_of_In.
Qed.
End MultiFacts.

Section MultiTheorems.
Context {St Call : Type}.
Variable handle : St -> TimePair -> option (St * list Call).

Lemma multi_handle_total (mrsm : list nat) :
  forall (store : list St) (pair : TimePair),
    NoDup mrsm ->
    (forall r, r ∈ mrsm ->
       exists m, store !! r = Some m /\ is_Some (handle m pair)) ->
    is_Some (Rx.HandleTimePair handle mrsm store pair).
Proof.
  induction mrsm as [|r rest IH]; intros store pair Hnd Hall.
  - cbn. eauto.
  - apply NoDup_cons in Hnd. destruct Hnd as [Hnotin Hnd].
    destruct (Hall r) as (m & Hm & [[m' cs] Hh]); [apply elem_of_cons; auto|].
    cbn [Rx.HandleTimePair]. rewrite Hm, Hh.
    destruct (IH (<[r := m']> store) pair Hnd) as [[st2 cs2] H2].
    + intros r1 Hr1. destruct (Hall r1) as (m1 & Hm1 & Hs1);
        [apply elem_of_cons; auto|].
      exists m1. split; [|exact Hs1].
      rewrite list_lookup_insert_ne; [exact Hm1|]. intros ->. contradiction.
    + rewrite H2. eauto.
Qed.

(** X17: one pair through the dispatcher.  When the members are distinct
    machines and each handles the pair without panicking, the dispatcher
    returns normally; every member has handled the pair exactly once,
    machines that are not members are untouched, and the callbacks made are
    the members' callbacks in registration order. *)
Theorem multi_handle_each_once
  (mrsm : list nat) (store : list St) (pair : TimePair) :
  NoDup mrsm ->
  (forall r, r ∈ mrsm ->
     exists m, store !! r = Some m /\ is_Some (handle m pair)) ->
  exists store',
    Rx.HandleTimePair handle mrsm store pair
      = Some (store', concat (map (member_calls handle store pair) mrsm)) /\
    length store' = length store /\
    (forall r m, r ∈ mrsm -> store !! r = Some m ->
       exists m' cs, handle m pair = Some (m', cs) /\ store' !! r = Some m') /\
    (forall r, r ∉ mrsm -> store' !! r = store !! r).
Proof.
  intros Hnd Hall.
  destruct (multi_handle_total mrsm store pair Hnd Hall) as [[store' calls] Hrun].
  destruct (multi_handle_spec handle mrsm _ _ _ _ Hnd Hrun)
    as (Hlen & Hmem & Hout & ->).
  exists store'. auto.
Qed.

(** X18: members do not interfere.  If the dispatcher, with distinct
    members, gets through a whole pulse stream, then every member ends in
    the state it reaches when it is fed the same stream on its own, and
    machines that are not members are untouched. *)
Theorem multi_run_independent (mrsm : list nat) (ps : list TimePair) :
  forall (store store' : list St) (calls : list Call),
    NoDup mrsm ->
    run (Rx.HandleTimePair handle mrsm) store ps = Some (store', calls) ->
    (forall r m, r ∈ mrsm -> store !! r = Some m ->
       exists m' cs, run handle m ps = Some (m', cs) /\ store' !! r = Some m') /\
    (forall r, r ∉ mrsm -> store' !! r = store !! r).
Proof.
  induction ps as [|p ps IH]; intros store store' calls Hnd Hrun.
  - cbn in Hrun. injection Hrun as <- <-. split; [|auto].
    intros r m _ Hm. exists m, []. auto.
  - cbn [run] in Hrun.
    destruct (Rx.HandleTimePair handle mrsm store p) as [[st1 c1]|] eqn:H1;
      [|discriminate].
    destruct (run (Rx.HandleTimePair handle mrsm) st1 ps) as [[st2 c2]|] eqn:H2;
      [|discriminate].
    injection Hrun as <- <-.
    destruct (multi_handle_spec handle mrsm _ _ _ _ Hnd H1)
      as (_ & Hmem & Hout & _).
    destruct (IH _ _ _ Hnd H2) as (Hmem2 & Hout2).
    split.
    + intros r m Hr Hm.
      destruct (Hmem r m Hr Hm) as (m1 & cs1 & Hh & Hm1).
      destruct (Hmem2 r m1 Hr Hm1) as (m2 & cs2 & Hrun2 & Hm2).
      exists m2, (cs1 ++ cs2). cbn [run]. rewrite Hh, Hrun2. auto.
    + intros r Hr. rewrite (Hout2 r Hr). auto.
Qed.

(** X19: no isolation between members.  If a member, in the state it has
    when the pair arrives, panics on the pair, or is a nil interface, the
    dispatcher's call panics as well. *)
Theorem multi_handle_panics
  (mrsm : list nat) (pair : TimePair) (r : nat) :
  forall store : list St,
    r ∈ mrsm ->
    match store !! r with
    | Some m => handle m pair = None
    | None => True
    end ->
    Rx.HandleTimePair handle mrsm store pair = None.
Proof.
  induction mrsm as [|r0 rest IH]; intros store Hr Hbad; [inversion Hr|].
  cbn [Rx.HandleTimePair].
  destruct (decide (r0 = r)) as [->|Hne].
  - destruct (store !! r) as [m|]; [|reflexivity]. now rewrite Hbad.
  - apply elem_of_cons in Hr. destruct Hr as [->|Hr]; [contradiction|].
    destruct (store !! r0) as [m0|]; [|reflexivity].
    destruct (handle m0 pair) as [[m0' cs]|]; [|reflexivity].
    rewrite (IH (<[r0 := m0']> store) Hr); [reflexivity|].
    now rewrite list_lookup_insert_ne by exact Hne.
Qed.

(** X20: a machine registered twice handles every pair twice: the second
    call starts from the state the first one left, and both calls'
    callbacks are made, in that order. *)
Theorem multi_handle_registered_twice
  (store : list St) (pair : TimePair) (r : nat)
  (m m1 m2 : St) (cs1 cs2 : list Call) :
  store !! r = Some m ->
  handle m pair = Some (m1, cs1) ->
  handle m1 pair = Some (m2, cs2) ->
  Rx.HandleTimePair handle (Rx.MultiRxStateMachine [r; r]) store pair
  = Some (<[r := m2]> store, cs1 ++ cs2).
Proof.
  intros Hm H1 H2. unfold Rx.MultiRxStateMachine. cbn [Rx.HandleTimePair].
  assert (Hlt : (r < length store)%nat) by (eapply lookup_lt_Some; eauto).
  rewrite Hm, H1, list_lookup_insert_eq, H2 by exact Hlt.
  rewrite list_insert_insert_eq, app_nil_r. reflexivity.
Qed.
End MultiTheorems.

Lemma multi_handle_each_once_witness :
  exists store',
    Rx.HandleTimePair Hexbug.HandleTimePair [0%nat; 1%nat]
      [Hexbug.NewStateMachine;
       {| Hexbug.rcvbuf := 255; Hexbug.bitcount := 8; Hexbug.parity := false |}]
      (350000, 1000000)
    = Some (store', [511]).
Proof.
  destruct (multi_handle_each_once Hexbug.HandleTimePair [0%nat; 1%nat]
              [Hexbug.NewStateMachine;
               {| Hexbug.rcvbuf := 255; Hexbug.bitcount := 8;
                  Hexbug.parity := false |}]
              (350000, 1000000)) as (store' & Hrun & _).
  - apply NoDup_cons. split; [|apply NoDup_singleton].
    intros H. apply list_elem_of_singleton in H. discriminate H.
  - intros r Hr. apply elem_of_cons in Hr. destruct Hr as [->|Hr].
    + eexists. split; [reflexivity|]. vm_compute. eauto.
    + apply list_elem_of_singleton in Hr. subst r.
      eexists. split; [reflexivity|]. vm_compute. eauto.
  - exists store'. exact Hrun.
Defined.

Lemma multi_run_independent_witness :
  exists m' cs,
    run Hexbug.HandleTimePair Hexbug.NewStateMachine
        [(350000, 1000000); (350000, 350000)] = Some (m', cs) /\
    [{| Hexbug.rcvbuf := 1; Hexbug.bitcount := 2; Hexbug.parity := true |};
     {| Hexbug.rcvbuf := 0; Hexbug.bitcount := 1; Hexbug.parity := false |}]
      !! 0%nat = Some m'.
Proof.
  destruct (multi_run_independent Hexbug.HandleTimePair [0%nat; 1%nat]
              [(350000, 1000000); (350000, 350000)]
              [Hexbug.NewStateMachine;
               {| Hexbug.rcvbuf := 255; Hexbug.bitcount := 8;
                  Hexbug.parity := false |}]
              [{| Hexbug.rcvbuf := 1; Hexbug.bitcount := 2;
                  Hexbug.parity := true |};
               {| Hexbug.rcvbuf := 0; Hexbug.bitcount := 1;
                  Hexbug.parity := false |}]
              [511]) as [Hmem _].
  - apply NoDup_cons. split; [|apply NoDup_singleton].
    intros H. apply list_elem_of_singleton in H. discriminate H.
  - vm_compute. reflexivity.
  - apply (Hmem 0%nat Hexbug.NewStateMachine).
    + apply elem_of_cons. left. reflexivity.
    + reflexivity.
Defined.

Lemma multi_handle_panics_witness :
  Rx.HandleTimePair Cheapo.HandleTimePair [0%nat; 1%nat]
    [Cheapo.NewStateMachine; {| Cheapo.buf := 0; Cheapo.bitcount := -1 |}]
    (500000, 1600000)
  = None.
Proof.
  apply (multi_handle_panics Cheapo.HandleTimePair [0%nat; 1%nat]
           (500000, 1600000) 1%nat).
  - apply elem_of_cons. right. apply elem_of_cons. left. reflexivity.
  - reflexivity.
Defined.

Lemma multi_handle_registered_twice_witness :
  Rx.HandleTimePair Hexbug.HandleTimePair (Rx.MultiRxStateMachine [0%nat; 0%nat])
    [Hexbug.NewStateMachine] (350000, 1000000)
  = Some ([{| Hexbug.rcvbuf := 3; Hexbug.bitcount := 2;
              Hexbug.parity := false |}], []).
Proof.
  apply (multi_handle_registered_twice Hexbug.HandleTimePair
           [Hexbug.NewStateMachine] (350000, 1000000) 0%nat
           Hexbug.NewStateMachine
           {| Hexbug.rcvbuf := 1; Hexbug.bitcount := 1; Hexbug.parity := true |}
           {| Hexbug.rcvbuf := 3; Hexbug.bitcount := 2; Hexbug.parity := false |}
           [] []); reflexivity.
Defined.

(** ** The receive device *)

Section DeviceFacts.
Context {St Call : Type}.
Variable handle : St -> TimePair -> option (St * list Call).

Lemma time_Since_exact (t d : Z) :
  0 <= d <= maxDuration -> time_Since (t + d) t = d.
Proof.
  intros Hd. unfold time_Since, minDuration, maxDuration in *.
  replace (t + d - t) with d by lia. lia.
Qed.

(** X21: the device measures the phases of the signal.  For a signal whose
    phases fit a [Duration], with the clock read at the instant of each
    edge, the state machine behind [interruptHandler] is handed exactly the
    phase pairs, in order: it ends in the state, and makes the callbacks, of
    the machine fed the phases directly, and the device panics exactly when
    that machine does.  [invertedInterruptHandler] does the same for the
    signal of opposite polarity. *)
Theorem rx_device_measures_phases (phases : list TimePair) :
  forall rx : Rx.RxDevice (St := St),
    Forall rx_phase phases ->
    (match Rx.interrupts (Rx.interruptHandler handle) rx
             (rx_edges false (Rx.lastPulse rx) phases) with
     | Some (rx', cs) =>
         run handle (Rx.stateMachine rx) phases
         = Some (Rx.stateMachine rx', cs)
     | None => run handle (Rx.stateMachine rx) phases = None
     end) /\
    (match Rx.interrupts (Rx.invertedInterruptHandler handle) rx
             (rx_edges true (Rx.lastPulse rx) phases) with
     | Some (rx', cs) =>
         run handle (Rx.stateMachine rx) phases
         = Some (Rx.stateMachine rx', cs)
     | None => run handle (Rx.stateMachine rx) phases = None
     end).
Proof.
  induction phases as [|[a b] rest IH]; intros rx Hall.
  - split; reflexivity.
  - inversion Hall as [|? ? [Ha Hb] Hrest]; subst. cbn [fst snd] in Ha, Hb.
    cbn [rx_edges Rx.interrupts run negb].
    unfold Rx.interruptHandler at 1 2, Rx.invertedInterruptHandler at 1 2.
    cbn [Rx.lastPulse Rx.lastHigh Rx.stateMachine].
    rewrite time_Since_exact by exact Ha.
    replace (Rx.lastPulse rx + a + b) with ((Rx.lastPulse rx + a) + b) by lia.
    rewrite time_Since_exact by exact Hb.
    destruct (handle (Rx.stateMachine rx) (a, b)) as [[m1 c1]|];
      [|split; reflexivity].
    set (rx1 := {| Rx.lastPulse := Rx.lastPulse rx + a + b;
                   Rx.lastHigh := a; Rx.stateMachine := m1 |}).
    destruct (IH rx1 Hrest) as [IH1 IH2].
    cbn [Rx.lastPulse Rx.stateMachine rx1] in IH1, IH2.
    split.
    + destruct (Rx.interrupts (Rx.interruptHandler handle) rx1 _)
        as [[rx2 c2]|]; now rewrite IH1.
    + destruct (Rx.interrupts (Rx.invertedInterruptHandler handle) rx1 _)
        as [[rx2 c2]|]; now rewrite IH2.
Qed.
End DeviceFacts.

Lemma rx_device_measures_phases_witness :
  exists rx' cs,
    Rx.interrupts (Rx.interruptHandler Hexbug.HandleTimePair)
      {| Rx.lastPulse := 1000; Rx.lastHigh := 0;
         Rx.stateMachine := Hexbug.NewStateMachine |}
      (rx_edges false 1000 [(350000, 1750000); (350000, 1000000)])
    = Some (rx', cs) /\
    run Hexbug.HandleTimePair Hexbug.NewStateMachine
        [(350000, 1750000); (350000, 1000000)]
    = Some (Rx.stateMachine rx', cs).
Proof.
  pose proof (rx_device_measures_phases Hexbug.HandleTimePair
                [(350000, 1750000); (350000, 1000000)]
                {| Rx.lastPulse := 1000; Rx.lastHigh := 0;
                   Rx.stateMachine := Hexbug.NewStateMachine |}) as H.
  destruct H as [H _].
  - repeat constructor; vm_compute; discriminate.
  - cbn [Rx.lastPulse Rx.stateMachine] in H.
    match type of H with
    | match ?X with _ => _ end =>
        destruct X as [[rx' cs]|] eqn:E
    end.
    + exists rx', cs. split; [reflexivity | exact H].
    + vm_compute in E. discriminate E.
Defined.

(** ** The generic decoder at the bit threshold *)

(** X22: in the generic fixed-length decoder a pulse that is not a start
    marker and whose deassert-duration is exactly 1 ms is not counted: in
    every state it leaves accumulator and bit counter as they were.  The
    delivery test still runs, so the accumulator is delivered once more when
    the bit counter is already at 10 or beyond. *)
Theorem cheapo_threshold_pulse (c : Cheapo.StateMachine) (on : Duration) :
  on <= 7 * Millisecond ->
  Cheapo.HandleTimePair c (on, Millisecond)
  = Some (c, if Cheapo.bitcount c <? 10 then [] else [Cheapo.buf c]).
Proof.
  intros Hon. unfold Cheapo.HandleTimePair, Cheapo.classify.
  destruct (Z.gtb_spec on (7 * Millisecond)); [lia|].
  rewrite Z.ltb_irrefl.
  destruct (Z.gtb_spec Millisecond Millisecond); [lia|].
  destruct (Cheapo.bitcount c <? 10); reflexivity.
Qed.

Lemma cheapo_threshold_pulse_witness :
  Cheapo.HandleTimePair {| Cheapo.buf := 5; Cheapo.bitcount := 12 |}
                        (500000, Millisecond)
  = Some ({| Cheapo.buf := 5; Cheapo.bitcount := 12 |}, [5]).
Proof.
  apply (cheapo_threshold_pulse {| Cheapo.buf := 5; Cheapo.bitcount := 12 |}
                                500000).
  vm_compute. discriminate.
Defined.

(** ** Staleness of the proportional decoder *)

Lemma time_Since_in_range (now t : Time) :
  minDuration <= now - t <= maxDuration -> time_Since now t = now - t.
Proof. unfold time_Since. lia. Qed.

(** X23: the staleness query after a marker.  A synchronisation marker
    handled at instant [t0] makes the decoder live: for every later instant
    whose distance from [t0] fits a [Duration], [IsSafe] holds exactly when
    more than [Timeout] has passed since [t0]; and once [IsSafe] holds it
    keeps holding at every later instant as long as no new marker comes. *)
Theorem ppm_staleness_after_marker
  (sm : PPM.StateMachine) (t0 now now' : Time) (marker : TimePair) :
  fst marker > PPM.minimumTimeBetweenFrames ->
  t0 <= now -> now - t0 <= maxDuration -> now <= now' ->
  exists sm',
    PPM.HandleTimePair sm t0 marker = Some sm' /\
    PPM.currentCh sm' = 0 /\
    PPM.channels sm' = PPM.channels sm /\
    PPM.IsSafe sm' now = (now - t0 >? PPM.Timeout sm) /\
    (PPM.IsSafe sm' now = true -> PPM.IsSafe sm' now' = true).
Proof.
  intros Hm Ht Hd Hn. destruct marker as [on off]. cbn [fst] in Hm.
  unfold PPM.HandleTimePair.
  destruct (Z.gtb_spec on PPM.minimumTimeBetweenFrames); [|lia].
  eexists. split; [reflexivity|].
  unfold PPM.IsSafe. cbn [PPM.currentCh PPM.channels PPM.last PPM.Timeout].
  split; [reflexivity|]. split; [reflexivity|].
  unfold minDuration, maxDuration in *.
  rewrite (time_Since_in_range now t0) by (unfold minDuration, maxDuration; lia).
  split; [reflexivity|].
  intros Hs. apply Z.gtb_lt in Hs. apply Z.gtb_lt.
  unfold time_Since, minDuration, maxDuration.
  assert (PPM.Timeout sm < 2 ^ 63 - 1) by lia. lia.
Qed.

Lemma ppm_staleness_after_marker_witness :
  exists sm',
    PPM.HandleTimePair PPM.NewStateMachine 1000 (7000000, 400000) = Some sm' /\
    PPM.IsSafe sm' 700000000 = true.
Proof.
  destruct (ppm_staleness_after_marker PPM.NewStateMachine 1000
              700000000 800000000 (7000000, 400000))
    as (sm' & Hh & _ & _ & Hs & _).
  - reflexivity.
  - lia.
  - vm_compute. discriminate.
  - lia.
  - exists sm'. split; [exact Hh|]. rewrite Hs. reflexivity.
Defined.

(** X24: where the two revisions differ at start-up.  Feed a fresh decoder
    one channel pulse and then a first marker at [t0], and read channel 0
    while the marker is no older than [Timeout].  The later revision ignored
    the early pulse and reads 1500 microseconds; the earlier revision
    stored it and reads back the pulse's on plus off time. *)
Theorem ppm_revisions_at_startup
  (t t0 now : Time) (p marker : TimePair) :
  fst p <= PPM.minimumTimeBetweenFrames ->
  fst marker > PPM.minimumTimeBetweenFrames ->
  minDuration <= now - t0 <= PPM.Timeout PPM.NewStateMachine ->
  (exists sm,
      PPM.feed PPM.NewStateMachine [(t, p); (t0, marker)] = Some sm /\
      PPM.Channel sm now 0 = Some (1500 * Microsecond)) /\
  (exists sm1 sm2,
      PPMEarlier.HandleTimePair PPMEarlier.NewStateMachine t p = Some sm1 /\
      PPMEarlier.HandleTimePair sm1 t0 marker = Some sm2 /\
      PPMEarlier.Channel sm2 now 0 = Some (wrap_int64 (fst p + snd p))).
Proof.
  intros Hp Hm Hnow. destruct p as [on off], marker as [mon moff].
  cbn [fst snd] in *.
  assert (Hto : PPM.Timeout PPM.NewStateMachine = 600000000) by reflexivity.
  assert (Hsince : time_Since now t0 = now - t0).
  { apply time_Since_in_range. rewrite Hto in Hnow.
    unfold maxDuration. lia. }
  split.
  - cbn [PPM.feed].
    rewrite ppm_handle_before_marker by (auto; reflexivity).
    unfold PPM.HandleTimePair.
    destruct (Z.gtb_spec mon PPM.minimumTimeBetweenFrames); [|lia].
    eexists. split; [reflexivity|].
    unfold PPM.Channel, PPM.IsSafe. cbn [PPM.last PPM.Timeout].
    rewrite Hsince.
    destruct (Z.gtb_spec (now - t0) (PPM.Timeout PPM.NewStateMachine)); [lia|].
    reflexivity.
  - unfold PPMEarlier.HandleTimePair at 1.
    destruct (Z.gtb_spec on PPM.minimumTimeBetweenFrames); [lia|].
    cbn [PPMEarlier.NewStateMachine PPM.currentCh PPM.channels PPM.store
         PPM.safeChannels PPM.Timeout PPM.last].
    eexists. eexists. split; [reflexivity|].
    unfold PPMEarlier.HandleTimePair.
    destruct (Z.gtb_spec mon PPM.minimumTimeBetweenFrames); [|lia].
    split; [reflexivity|].
    unfold PPMEarlier.Channel. cbn [PPM.last PPM.Timeout PPM.channels].
    rewrite Hsince.
    destruct (Z.gtb_spec (now - t0) (wrap_int64 (100 * PPM.minimumTimeBetweenFrames)));
      [rewrite Hto in Hnow; change (wrap_int64 (100 * PPM.minimumTimeBetweenFrames))
         with 600000000 in *; lia|].
    reflexivity.
Qed.

Lemma ppm_revisions_at_startup_witness :
  exists sm1 sm2,
    PPMEarlier.HandleTimePair PPMEarlier.NewStateMachine 500 (1300000, 400000)
      = Some sm1 /\
    PPMEarlier.HandleTimePair sm1 1000 (7000000, 400000) = Some sm2 /\
    PPMEarlier.Channel sm2 2000 0 = Some 1700000.
Proof.
  destruct (ppm_revisions_at_startup 500 1000 2000
              (1300000, 400000) (7000000, 400000))
    as [_ (sm1 & sm2 & H1 & H2 & H3)].
  - vm_compute. discriminate.
  - reflexivity.
  - split; vm_compute; discriminate.
  - exists sm1, sm2. split; [exact H1|]. split; [exact H2 | exact H3].
Defined.

(** ** The layout of marshalled frames *)

Lemma samsung_word_bits (f : Samsung.Frame) (i : Z) :
  0 <= Samsung.Addr f < 2 ^ 16 -> 0 <= i < 32 ->
  Z.testbit (samsung_word f) i
  = if i <? 16 then Z.testbit (Samsung.Addr f) i
    else Z.testbit (Samsung.Cmd f) (i - 16).
Proof.
  intros Ha Hi. unfold samsung_word, wrap_uint32.
  rewrite Z.lor_spec, Z.mod_pow2_bits_low by lia.
  destruct (Z.ltb_spec i 16).
  - now rewrite Z.shiftl_spec_low by lia.
  - rewrite Z.shiftl_spec by lia.
    rewrite (testbit_above 16 (Samsung.Addr f)) by lia.
    apply orb_false_r.
Qed.

(** X3: the layout of a marshalled frame whose address is a 16-bit value.
    [MarshalFrame] returns 34 pairs: the start pair, then the 16 address
    bits and after them the 16 low command bits, each least significant bit
    first with [OnePair] for a set bit and [ZeroPair] for a clear one, and a
    closing [ZeroPair]. *)
Theorem samsung_marshal_layout (f : Samsung.Frame) :
  0 <= Samsung.Addr f < 2 ^ 16 ->
  length (Samsung.MarshalFrame f) = 34%nat /\
  Samsung.MarshalFrame f !! 0%nat = Some Samsung.StartPair /\
  (forall i : nat, (i < 16)%nat ->
     Samsung.MarshalFrame f !! (1 + i)%nat
     = Some (if Z.testbit (Samsung.Addr f) (Z.of_nat i)
             then Samsung.OnePair else Samsung.ZeroPair)) /\
  (forall i : nat, (i < 16)%nat ->
     Samsung.MarshalFrame f !! (17 + i)%nat
     = Some (if Z.testbit (Samsung.Cmd f) (Z.of_nat i)
             then Samsung.OnePair else Samsung.ZeroPair)) /\
  Samsung.MarshalFrame f !! 33%nat = Some Samsung.ZeroPair.
Proof.
  intros Ha. rewrite samsung_marshal_pairs.
  set (g := fun i : nat => if Z.testbit (samsung_word f) (Z.of_nat i)
                           then Samsung.OnePair else Samsung.ZeroPair).
  assert (Hg : forall i : nat, (i < 32)%nat ->
             (Samsung.StartPair :: map g (seq 0 32) ++ [Samsung.ZeroPair])
               !! S i = Some (g i)).
  { intros i Hi.
    change ((map g (seq 0 32) ++ [Samsung.ZeroPair]) !! i = Some (g i)).
    rewrite lookup_app_l by (rewrite length_map, length_seq; lia).
    change (map g (seq 0 32)) with (g <$> seq 0 32).
    rewrite list_lookup_fmap, lookup_seq_lt by lia. reflexivity. }
  split; [|split; [|split; [|split]]].
  - cbn [length]. rewrite length_app, length_map, length_seq. reflexivity.
  - reflexivity.
  - intros i Hi. change (1 + i)%nat with (S i). rewrite Hg by lia.
    unfold g. rewrite samsung_word_bits by lia.
    destruct (Z.ltb_spec (Z.of_nat i) 16); [reflexivity | lia].
  - intros i Hi. change (17 + i)%nat with (S (16 + i)). rewrite Hg by lia.
    unfold g. rewrite samsung_word_bits by lia.
    destruct (Z.ltb_spec (Z.of_nat (16 + i)) 16); [lia|].
    replace (Z.of_nat (16 + i) - 16) with (Z.of_nat i) by lia. reflexivity.
  - reflexivity.
Qed.

Lemma samsung_marshal_layout_witness :
  Samsung.MarshalFrame {| Samsung.Addr := 4660; Samsung.Cmd := 22136 |}
    !! 3%nat = Some Samsung.OnePair.
Proof.
  destruct (samsung_marshal_layout
              {| Samsung.Addr := 4660; Samsung.Cmd := 22136 |})
    as (_ & _ & Haddr & _).
  - simpl. lia.
  - apply (Haddr 2%nat). lia.
Defined.

(** X6: the layout of a marshalled command, for every command.
    [MarshalFrame] returns 10 pairs: the start pair, then one pair for each
    of the bits 0 to 7 of the command, least significant first with [hbOne]
    for a set bit and [hbZero] for a clear one, and last a parity pair
    chosen so that the nine pairs after the start pair hold an odd number
    of [hbOne]. *)
Theorem hexbug_marshal_layout (c : Z) :
  length (Hexbug.MarshalFrame c) = 10%nat /\
  Hexbug.MarshalFrame c !! 0%nat = Some Hexbug.hbStart /\
  (forall i : nat, (i < 8)%nat ->
     Hexbug.MarshalFrame c !! S i
     = Some (if Z.testbit c (Z.of_nat i)
             then Hexbug.hbOne else Hexbug.hbZero)) /\
  Nat.odd (hexbug_ones_sent (drop 1 (Hexbug.MarshalFrame c))) = true.
Proof.
  rewrite hexbug_marshal_pairs. split; [|split; [|split]].
  - reflexivity.
  - reflexivity.
  - intros i Hi.
    destruct i as [|[|[|[|[|[|[|[|i]]]]]]]]; try lia; reflexivity.
  - unfold hexbug_data_parity. cbn [seq map app fold_right drop].
    destruct (Z.testbit c (Z.of_nat 0)), (Z.testbit c (Z.of_nat 1)),
             (Z.testbit c (Z.of_nat 2)), (Z.testbit c (Z.of_nat 3)),
             (Z.testbit c (Z.of_nat 4)), (Z.testbit c (Z.of_nat 5)),
             (Z.testbit c (Z.of_nat 6)), (Z.testbit c (Z.of_nat 7));
      reflexivity.
Qed.
